(** * flash-border-linux: a shallow embedding and its checked properties

    The program flashes a coloured border on every display and fades it out.
    This development embeds [src/flash-border-linux.py]:

    - [PyNum]: the Python number operations the program uses ([int] of a
      float, [float] of an int), over IEEE binary64 (Rocq's primitive floats);
    - [PyStr]: [str.lower], [str.lstrip] and [int(s, 16)] on strings of
      code points below 256;
    - [parse_color] and its table [NAMED_COLORS], on such strings;
    - [Unicode]: the same resolver on any [str], over the Unicode tables
      of the interpreter;
    - [Cairo]: the drawing context handed to a draw function;
    - [FlashBorderApp]: the application object, its callbacks and the
      timer-driven main loop;
    - [Script]: the module body (library loading, then [main]).

    Rocq's [string] holds code points 0..255 ([ascii] read as Latin-1); a
    [Unicode.str] holds any code points. Floats are binary64, so rounding
    is the machine's. *)

From Stdlib Require Import ZArith List String Ascii Bool Lia Floats.
From stdpp Require Import gmap strings.
Import ListNotations.

Set Warnings "-inexact-float".
Local Open Scope Z_scope.

(** ** Python exceptions

    A call either returns a value or raises; only the exceptions the program
    can meet are listed. *)

Inductive exn : Type :=
| ValueError
| OverflowError
| KeyError
| AttributeError
| SystemExit (status : Z).

Inductive result (A : Type) : Type :=
| Ok (a : A)
| Raise (e : exn).

Arguments Ok {A} a.
Arguments Raise {A} e.

(** ** Python numbers *)

Module PyNum.

(** [int(x)] on a float: truncation toward zero; an infinity raises
    OverflowError and a NaN raises ValueError. *)
Definition trunc_SF (f : spec_float) : result Z :=
  match f with
  | S754_zero _ => Ok 0
  | S754_finite s m e =>
      let a := match e with
               | Zneg p => Z.shiftr (Zpos m) (Zpos p)
               | _ => Z.shiftl (Zpos m) e
               end in
      Ok (if s then - a else a)
  | S754_infinity _ => Raise OverflowError
  | S754_nan => Raise ValueError
  end.

Definition py_int (x : float) : result Z := trunc_SF (Prim2SF x).

(** [float(n)] on an int, as the division [x / n] of a float by an int
    performs it: the nearest binary64 value. (Python raises OverflowError
    on an int beyond the float range; the program only converts ints that
    [int] produced from a float, and constants.) *)
Definition float_of_Z (n : Z) : float :=
  SF2Prim (binary_normalize prec emax n 0 false).

(** [x * n] and [x / n] for a float [x] and an int [n]: the int is
    converted first. (Python raises ZeroDivisionError on a zero divisor;
    the program divides by 16 and by [max(1, ...)].) *)
Definition mul_int (x : float) (n : Z) : float := (x * float_of_Z n)%float.
Definition div_int (x : float) (n : Z) : float := (x / float_of_Z n)%float.

(** [round(x)] on a float: the nearest integer, ties to the even one. *)
Definition round_SF (f : spec_float) : result Z :=
  match f with
  | S754_zero _ => Ok 0
  | S754_finite s m e =>
      let a := match e with
               | Zneg p =>
                   let q := Z.shiftr (Zpos m) (Zpos p) in
                   let r := Zpos m - Z.shiftl q (Zpos p) in
                   let half := Z.shiftl 1 (Zpos p - 1) in
                   if (half <? r) || ((half =? r) && Z.odd q) then q + 1 else q
               | _ => Z.shiftl (Zpos m) e
               end in
      Ok (if s then - a else a)
  | S754_infinity _ => Raise OverflowError
  | S754_nan => Raise ValueError
  end.

Definition py_round (x : float) : result Z := round_SF (Prim2SF x).

(** [math.ceil(x)] on a float. *)
Definition ceil_SF (f : spec_float) : result Z :=
  match f with
  | S754_zero _ => Ok 0
  | S754_finite s m e =>
      match e with
      | Zneg p =>
          let q := Z.shiftr (Zpos m) (Zpos p) in
          let exact := Zpos m =? Z.shiftl q (Zpos p) in
          Ok (if s then - q else if exact then q else q + 1)
      | _ => let a := Z.shiftl (Zpos m) e in Ok (if s then - a else a)
      end
  | S754_infinity _ => Raise OverflowError
  | S754_nan => Raise ValueError
  end.

Definition py_ceil (x : float) : result Z := ceil_SF (Prim2SF x).

End PyNum.

(** ** Python strings *)

Module PyStr.

Definition code (c : ascii) : Z := Z.of_N (N_of_ascii c).

(** [str.lower] on one code point below 256: A-Z, and the Latin-1 capitals
    U+00C0..U+00DE without the multiplication sign U+00D7. *)
Definition lower_char (c : ascii) : ascii :=
  let n := code c in
  if ((65 <=? n) && (n <=? 90))
     || ((192 <=? n) && (n <=? 222) && negb (n =? 215))
  then ascii_of_N (Z.to_N (n + 32)) else c.

Fixpoint lower (s : string) : string :=
  match s with
  | EmptyString => EmptyString
  | String c s' => String (lower_char c) (lower s')
  end.

(** [s.lstrip(c)] for a one-character set: every leading [c] goes. *)
Fixpoint lstrip (c : ascii) (s : string) : string :=
  match s with
  | EmptyString => EmptyString
  | String a s' => if Ascii.eqb a c then lstrip c s' else s
  end.

(** [len(s)] *)
Definition len (s : string) : Z := Z.of_nat (String.length s).

(** *** [int(s, 16)]

    CPython first maps a non-ASCII space to a blank (below 256: U+0085 and
    U+00A0) and any other code point from 127 on to a character no number
    contains; then it reads blanks, a sign, an optional [0x] (after which
    one underscore may stand), and digits separated by single underscores,
    up to trailing blanks. *)
Definition is_space (c : ascii) : bool :=
  let n := code c in
  ((9 <=? n) && (n <=? 13)) || (n =? 32) || (n =? 133) || (n =? 160).

Definition digit_value (c : ascii) : option Z :=
  let n := code c in
  if (48 <=? n) && (n <=? 57) then Some (n - 48)
  else if (97 <=? n) && (n <=? 102) then Some (n - 87)
  else if (65 <=? n) && (n <=? 70) then Some (n - 55)
  else None.

Definition is_underscore (c : ascii) : bool := code c =? 95.

Fixpoint skip_spaces (cs : list ascii) : list ascii :=
  match cs with
  | c :: r => if is_space c then skip_spaces r else cs
  | [] => []
  end.

Definition read_sign (cs : list ascii) : bool * list ascii :=
  match cs with
  | c :: r =>
      if code c =? 43 then (false, r)
      else if code c =? 45 then (true, r)
      else (false, cs)
  | [] => (false, [])
  end.

Definition read_prefix (cs : list ascii) : list ascii :=
  match cs with
  | z :: x :: r =>
      if (code z =? 48) && ((code x =? 120) || (code x =? 88))
      then match r with
           | u :: r' => if is_underscore u then r' else r
           | [] => r
           end
      else cs
  | _ => cs
  end.

(** The digit loop: [prev] says the last character read was an underscore,
    [n] counts the digits, [acc] is their value so far. The result is the
    value, the digit count and the unread rest; [None] on a doubled or a
    trailing underscore. *)
Fixpoint read_digits (cs : list ascii) (prev : bool) (n acc : Z)
  : option (Z * Z * list ascii) :=
  match cs with
  | c :: r =>
      match digit_value c with
      | Some d => read_digits r false (n + 1) (16 * acc + d)
      | None =>
          if is_underscore c
          then if prev then None else read_digits r true n acc
          else if prev then None else Some (acc, n, cs)
      end
  | [] => if prev then None else Some (acc, n, [])
  end.

Definition int16 (s : string) : result Z :=
  let cs := skip_spaces (list_ascii_of_string s) in
  let '(neg, cs) := read_sign cs in
  let cs := read_prefix cs in
  match cs with
  | c :: _ =>
      if is_underscore c then Raise ValueError else
      match read_digits cs false 0 0 with
      | Some (v, n, rest) =>
          if n =? 0 then Raise ValueError
          else match skip_spaces rest with
               | [] => Ok (if neg then - v else v)
               | _ :: _ => Raise ValueError
               end
      | None => Raise ValueError
      end
  | [] => Raise ValueError
  end.

End PyStr.

(** ** The colour table and the colour resolver *)

Definition rgb : Type := float * float * float.

Definition NAMED_COLORS_items : list (string * rgb) :=
  [ ("red"%string,    (1.0, 0.0, 0.0)%float);
    ("orange"%string, (1.0, 0.6, 0.0)%float);
    ("yellow"%string, (1.0, 1.0, 0.0)%float);
    ("green"%string,  (0.0, 0.8, 0.0)%float);
    ("blue"%string,   (0.0, 0.4, 1.0)%float);
    ("purple"%string, (0.6, 0.2, 0.8)%float);
    ("cyan"%string,   (0.0, 0.8, 0.8)%float);
    ("white"%string,  (1.0, 1.0, 1.0)%float);
    ("pink"%string,   (1.0, 0.4, 0.7)%float) ].

Definition NAMED_COLORS : gmap string rgb := list_to_map NAMED_COLORS_items.

(** [d[k]] on a dict: the value, or KeyError. *)
Definition getitem {V : Type} (d : gmap string V) (k : string) : result V :=
  match d !! k with
  | Some v => Ok v
  | None => Raise KeyError
  end.

(** One channel of a hex colour: [((val >> k) & 0xFF) / 255.0]. *)
Definition channel (val k : Z) : float :=
  (PyNum.float_of_Z (Z.land (Z.shiftr val k) 255) / 255.0)%float.

Definition parse_color (name : string) : result rgb :=
  (* [lower = name.lower().lstrip("#")] is assigned and never read *)
  let lower := PyStr.lstrip "#" (PyStr.lower name) in
  match NAMED_COLORS !! PyStr.lower name with
  | Some _ => getitem NAMED_COLORS (PyStr.lower name)
  | None =>
      (* Try hex (with or without #) *)
      let hexstr := PyStr.lstrip "#" name in
      if PyStr.len hexstr =? 6 then
        match PyStr.int16 hexstr with
        | Ok val => Ok (channel val 16, channel val 8, channel val 0)
        | Raise ValueError => getitem NAMED_COLORS "red"
        | Raise e => Raise e
        end
      else getitem NAMED_COLORS "red"
  end.

(** ** The colour resolver on any Python [str]

    A [str] is a sequence of code points of any size, and [sys.argv] can
    hold any of them. Three things the resolver does depend on the Unicode
    tables of the interpreter in use: the case mapping of [str.lower] on a
    string that is not pure ASCII, and the tests [Py_UNICODE_ISSPACE] and
    [Py_UNICODE_TODECIMAL] behind [int(s, 16)]. The resolver is embedded over
    any such tables; everything else is CPython's fixed code. *)

Module Unicode.

Definition str : Type := list Z.

Definition of_string (s : string) : str :=
  map PyStr.code (list_ascii_of_string s).

Class Database : Type :=
  { (** [str.lower] on a string with a code point from 128 on *)
    case_lower : str -> str;
    (** [Py_UNICODE_ISSPACE] *)
    isspace : Z -> bool;
    (** [Py_UNICODE_TODECIMAL]: the decimal digit a code point stands for *)
    todecimal : Z -> option Z }.

Definition is_ascii (s : str) : bool := forallb (fun c => c <? 128) s.

(** [len(s)] *)
Definition len (s : str) : Z := Z.of_nat (length s).

(** [s.lstrip(c)] for a one-character set. *)
Fixpoint lstrip (c : Z) (s : str) : str :=
  match s with
  | [] => []
  | a :: s' => if a =? c then lstrip c s' else s
  end.

(** *** [PyLong_FromString] in base 16, on the ASCII buffer

    Blanks ([Py_ISSPACE]), a sign, an optional [0x] (after which one
    underscore may stand), digits separated by single underscores, blanks;
    the whole buffer must be read. *)
Definition ISSPACE (c : Z) : bool := ((9 <=? c) && (c <=? 13)) || (c =? 32).

Definition DigitValue (c : Z) : option Z :=
  if (48 <=? c) && (c <=? 57) then Some (c - 48)
  else if (97 <=? c) && (c <=? 102) then Some (c - 87)
  else if (65 <=? c) && (c <=? 70) then Some (c - 55)
  else None.

Fixpoint skip_spaces (cs : list Z) : list Z :=
  match cs with
  | c :: r => if ISSPACE c then skip_spaces r else cs
  | [] => []
  end.

Definition read_sign (cs : list Z) : bool * list Z :=
  match cs with
  | c :: r =>
      if c =? 43 then (false, r)
      else if c =? 45 then (true, r)
      else (false, cs)
  | [] => (false, [])
  end.

Definition read_prefix (cs : list Z) : list Z :=
  match cs with
  | z :: x :: r =>
      if (z =? 48) && ((x =? 120) || (x =? 88))
      then match r with
           | u :: r' => if u =? 95 then r' else r
           | [] => r
           end
      else cs
  | _ => cs
  end.

(** The digit loop, as [PyStr.read_digits]: the value, the digit count and
    the unread rest; [None] on a doubled or a trailing underscore. *)
Fixpoint read_digits (cs : list Z) (prev : bool) (n acc : Z)
  : option (Z * Z * list Z) :=
  match cs with
  | c :: r =>
      match DigitValue c with
      | Some d => read_digits r false (n + 1) (16 * acc + d)
      | None =>
          if c =? 95
          then if prev then None else read_digits r true n acc
          else if prev then None else Some (acc, n, cs)
      end
  | [] => if prev then None else Some (acc, n, [])
  end.

Definition PyLong_FromString (buffer : list Z) : result Z :=
  let '(neg, cs) := read_sign (skip_spaces buffer) in
  let cs := read_prefix cs in
  match cs with
  | c :: _ =>
      if c =? 95 then Raise ValueError else
      match read_digits cs false 0 0 with
      | Some (v, n, rest) =>
          if n =? 0 then Raise ValueError
          else match skip_spaces rest with
               | [] => Ok (if neg then - v else v)
               | _ :: _ => Raise ValueError
               end
      | None => Raise ValueError
      end
  | [] => Raise ValueError
  end.


Section Tables.

Context {db : Database}.

(** [str.lower]: pure ASCII strings take the fast path, A-Z plus 32. *)
Definition ascii_lower (c : Z) : Z :=
  if (65 <=? c) && (c <=? 90) then c + 32 else c.

Definition lower (s : str) : str :=
  if is_ascii s then map ascii_lower s else case_lower s.

(** [_PyUnicode_TransformDecimalAndSpaceToASCII]: a pure ASCII string is
    taken as it is; otherwise code points below 127 are kept, a space
    becomes a blank, a decimal digit its ASCII digit, and at the first other
    code point the buffer ends with a question mark. *)
Fixpoint transform (s : str) : list Z :=
  match s with
  | [] => []
  | ch :: r =>
      if ch <? 127 then ch :: transform r
      else if isspace ch then 32 :: transform r
      else match todecimal ch with
           | Some decimal => (48 + decimal) :: transform r
           | None => [63]
           end
  end.

Definition TransformDecimalAndSpaceToASCII (s : str) : list Z :=
  if is_ascii s then s else transform s.

(** [int(s, 16)] *)
Definition int16 (s : str) : result Z :=
  PyLong_FromString (TransformDecimalAndSpaceToASCII s).


Definition NAMED_COLORS : gmap str rgb :=
  list_to_map (map (fun kv => (of_string (fst kv), snd kv)) NAMED_COLORS_items).

Definition getitem {V : Type} (d : gmap str V) (k : str) : result V :=
  match d !! k with
  | Some v => Ok v
  | None => Raise KeyError
  end.

Definition parse_color (name : str) : result rgb :=
  (* [lower = name.lower().lstrip("#")] is assigned and never read *)
  let lower_ := lstrip 35 (lower name) in
  match NAMED_COLORS !! lower name with
  | Some _ => getitem NAMED_COLORS (lower name)
  | None =>
      (* Try hex (with or without #) *)
      let hexstr := lstrip 35 name in
      if len hexstr =? 6 then
        match int16 hexstr with
        | Ok val => Ok (channel val 16, channel val 8, channel val 0)
        | Raise ValueError => getitem NAMED_COLORS (of_string "red")
        | Raise e => Raise e
        end
      else getitem NAMED_COLORS (of_string "red")
  end.

End Tables.

(** An excerpt of the Unicode tables, for examples: the Kelvin sign
    U+212A lowers to k and the other capitals below U+0100 as in [PyStr];
    U+0085, U+00A0 and U+3000 are spaces; the Arabic-Indic and the
    fullwidth digits are decimal digits. *)
Definition excerpt : Database :=
  {| case_lower :=
       map (fun c => if c =? 8490 then 107
                     else if ((65 <=? c) && (c <=? 90))
                             || ((192 <=? c) && (c <=? 222) && negb (c =? 215))
                          then c + 32 else c);
     isspace := fun c => (c =? 133) || (c =? 160) || (c =? 12288);
     todecimal := fun c =>
       if (1632 <=? c) && (c <=? 1641) then Some (c - 1632)
       else if (65296 <=? c) && (c <=? 65305) then Some (c - 65296)
       else None |}.

End Unicode.

(** ** Cairo

    The context a draw function receives. Coordinates are the ints the
    program passes. A pixel [(px, py)] is the unit cell at that corner; the
    target surface is [cr_width] by [cr_height] and nothing is painted
    outside it. *)

Module Cairo.

Record rectangle_path : Type :=
  { rect_x : Z; rect_y : Z; rect_width : Z; rect_height : Z }.

Definition rgba : Type := float * float * float * float.

Record context : Type :=
  { cr_width : Z;
    cr_height : Z;
    source : rgba;
    path : list rectangle_path;
    painted : list (rgba * rectangle_path) }.

(** A fresh context on a [width] by [height] surface: opaque black source,
    no path, nothing painted. *)
Definition create (width height : Z) : context :=
  {| cr_width := width; cr_height := height;
     source := (0.0, 0.0, 0.0, 1.0)%float;
     path := []; painted := [] |}.

Definition set_source_rgba (r g b a : float) (cr : context) : context :=
  {| cr_width := cr_width cr; cr_height := cr_height cr;
     source := (r, g, b, a);
     path := path cr; painted := painted cr |}.

Definition rectangle (x y width height : Z) (cr : context) : context :=
  {| cr_width := cr_width cr; cr_height := cr_height cr;
     source := source cr;
     path := path cr ++ [ {| rect_x := x; rect_y := y;
                             rect_width := width; rect_height := height |} ];
     painted := painted cr |}.

(** [fill] paints the current path with the current source and clears the
    path. *)
Definition fill (cr : context) : context :=
  {| cr_width := cr_width cr; cr_height := cr_height cr;
     source := source cr;
     path := [];
     painted := painted cr ++ map (fun r => (source cr, r)) (path cr) |}.

(** The cells a closed rectangle path encloses; a negative extent runs the
    path the other way round and encloses the cells on that side. *)
Definition covers (r : rectangle_path) (px py : Z) : bool :=
  (Z.min (rect_x r) (rect_x r + rect_width r) <=? px)
  && (px <? Z.max (rect_x r) (rect_x r + rect_width r))
  && (Z.min (rect_y r) (rect_y r + rect_height r) <=? py)
  && (py <? Z.max (rect_y r) (rect_y r + rect_height r)).

Definition on_surface (cr : context) (px py : Z) : bool :=
  (0 <=? px) && (px <? cr_width cr) && (0 <=? py) && (py <? cr_height cr).

(** The pixel received paint. *)
Definition filled (cr : context) (px py : Z) : bool :=
  on_surface cr px py
  && existsb (fun sr => covers (snd sr) px py) (painted cr).

(** The alpha values the fills of [cr] used. *)
Definition alphas (cr : context) : list float :=
  map (fun sr => snd (fst sr)) (painted cr).

End Cairo.

(** ** The layer shell and the widgets *)

Module LayerShell.
Inductive Layer : Type := BACKGROUND | BOTTOM | TOP | OVERLAY.
Module Edge.
Inductive t : Type := LEFT | RIGHT | TOP | BOTTOM.
End Edge.
Module KeyboardMode.
Inductive t : Type := NONE | EXCLUSIVE | ON_DEMAND.
End KeyboardMode.
End LayerShell.

(** A display is a handle. *)
Definition Monitor : Type := nat.

(** The methods the program registers as callbacks. *)
Inductive callback : Type :=
| cb_draw_border
| cb_start_fade
| cb_fade_tick.

Record DrawingArea : Type :=
  { draw_func : option callback; hexpand : bool; vexpand : bool }.

Record Window : Type :=
  { decorated : bool;
    layer : option LayerShell.Layer;
    namespace : option string;
    monitor : option Monitor;
    keyboard_mode : option LayerShell.KeyboardMode.t;
    exclusive_zone : Z;
    anchor : list LayerShell.Edge.t;
    child : option DrawingArea }.

(** ** The application *)

Module FlashBorderApp.

(** The attributes [__init__] sets, and [alpha_step], which exists only
    once [_start_fade] has assigned it. *)
Record self_t : Type :=
  { color : rgb;
    border_width : Z;
    hold : float;
    fade : float;
    alpha : float;
    alpha_step : option float;
    windows : list Window }.

(** What the program reaches of Gdk, Gtk and GLib: the displays, the style
    providers added, the windows presented, the timeout sources (interval
    and callback), whether [quit] was called, the windows whose child was
    asked to redraw, and the exceptions that left a callback. *)
Record toolkit : Type :=
  { monitors : list Monitor;
    providers : list string;
    presented : list Window;
    timers : list (Z * callback);
    quit_called : bool;
    redraws : list nat;
    uncaught : list exn }.

Record state : Type := { self : self_t; gtk : toolkit }.

Definition __init__ (color : rgb) (border_width : Z) (hold fade : float)
  : self_t :=
  {| color := color; border_width := border_width; hold := hold;
     fade := fade; alpha := 1.0%float; alpha_step := None; windows := [] |}.

Definition set_alpha (a : float) (s : self_t) : self_t :=
  {| color := color s; border_width := border_width s; hold := hold s;
     fade := fade s; alpha := a; alpha_step := alpha_step s;
     windows := windows s |}.

Definition set_alpha_step (d : float) (s : self_t) : self_t :=
  {| color := color s; border_width := border_width s; hold := hold s;
     fade := fade s; alpha := alpha s; alpha_step := Some d;
     windows := windows s |}.

Definition append_window (w : Window) (s : self_t) : self_t :=
  {| color := color s; border_width := border_width s; hold := hold s;
     fade := fade s; alpha := alpha s; alpha_step := alpha_step s;
     windows := windows s ++ [w] |}.

Definition add_provider (css : string) (t : toolkit) : toolkit :=
  {| monitors := monitors t; providers := providers t ++ [css];
     presented := presented t; timers := timers t;
     quit_called := quit_called t; redraws := redraws t;
     uncaught := uncaught t |}.

Definition present (w : Window) (t : toolkit) : toolkit :=
  {| monitors := monitors t; providers := providers t;
     presented := presented t ++ [w]; timers := timers t;
     quit_called := quit_called t; redraws := redraws t;
     uncaught := uncaught t |}.

Definition set_timers (l : list (Z * callback)) (t : toolkit) : toolkit :=
  {| monitors := monitors t; providers := providers t;
     presented := presented t; timers := l;
     quit_called := quit_called t; redraws := redraws t;
     uncaught := uncaught t |}.

(** [GLib.timeout_add(interval, cb)]: the interval is an unsigned 32-bit
    number of milliseconds; the binding raises OverflowError on an int
    outside that range. *)
Definition timeout_add (interval : Z) (cb : callback) (t : toolkit)
  : result unit * toolkit :=
  if (0 <=? interval) && (interval <? 2 ^ 32)
  then (Ok tt, set_timers (timers t ++ [(interval, cb)]) t)
  else (Raise OverflowError, t).

Definition quit (t : toolkit) : toolkit :=
  {| monitors := monitors t; providers := providers t;
     presented := presented t; timers := timers t;
     quit_called := true; redraws := redraws t;
     uncaught := uncaught t |}.

Definition queue_draw (i : nat) (t : toolkit) : toolkit :=
  {| monitors := monitors t; providers := providers t;
     presented := presented t; timers := timers t;
     quit_called := quit_called t; redraws := redraws t ++ [i];
     uncaught := uncaught t |}.

Definition report (e : exn) (t : toolkit) : toolkit :=
  {| monitors := monitors t; providers := providers t;
     presented := presented t; timers := timers t;
     quit_called := quit_called t; redraws := redraws t;
     uncaught := uncaught t ++ [e] |}.

Definition on_self (f : self_t -> self_t) (st : state) : state :=
  {| self := f (self st); gtk := gtk st |}.

Definition on_gtk (f : toolkit -> toolkit) (st : state) : state :=
  {| self := self st; gtk := f (gtk st) |}.

(** [LayerShell.set_anchor(win, edge, True)] *)
Definition set_anchor (e : LayerShell.Edge.t) (w : Window) : Window :=
  {| decorated := decorated w; layer := layer w; namespace := namespace w;
     monitor := monitor w; keyboard_mode := keyboard_mode w;
     exclusive_zone := exclusive_zone w; anchor := anchor w ++ [e];
     child := child w |}.

Definition _create_overlay (m : Monitor) (st : state) : Window * state :=
  let win :=
    {| decorated := false;
       layer := Some LayerShell.OVERLAY;
       namespace := Some "dingutil-flash"%string;
       monitor := Some m;
       keyboard_mode := Some LayerShell.KeyboardMode.NONE;
       exclusive_zone := -1;
       anchor := [];
       child := None |} in
  let win :=
    fold_left (fun w e => set_anchor e w)
      [LayerShell.Edge.TOP; LayerShell.Edge.BOTTOM;
       LayerShell.Edge.LEFT; LayerShell.Edge.RIGHT] win in
  let st := on_gtk (add_provider "window { background: transparent; }") st in
  let area :=
    {| draw_func := Some cb_draw_border; hexpand := true; vexpand := true |} in
  let win :=
    {| decorated := decorated win; layer := layer win;
       namespace := namespace win; monitor := monitor win;
       keyboard_mode := keyboard_mode win;
       exclusive_zone := exclusive_zone win; anchor := anchor win;
       child := Some area |} in
  (win, st).

(** The body of the [for] loop of [do_activate], over the displays still to
    visit. *)
Fixpoint create_overlays (ms : list Monitor) (st : state) : state :=
  match ms with
  | [] => st
  | m :: ms' =>
      let '(win, st) := _create_overlay m st in
      let st := on_self (append_window win) st in
      let st := on_gtk (present win) st in
      create_overlays ms' st
  end.

Definition do_activate (st : state) : result unit * state :=
  let st := create_overlays (monitors (gtk st)) st in
  (* Start fade after hold period *)
  match PyNum.py_int (PyNum.mul_int (hold (self st)) 1000) with
  | Ok ms =>
      let '(r, t) := timeout_add ms cb_start_fade (gtk st) in
      (r, {| self := self st; gtk := t |})
  | Raise e => (Raise e, st)
  end.

Definition _draw_border (s : self_t) (area : DrawingArea)
  (cr : Cairo.context) (width height : Z) : Cairo.context :=
  let '(r, g, b) := color s in
  let a := alpha s in
  let bw := border_width s in
  let cr := Cairo.set_source_rgba r g b a cr in
  (* Top *)
  let cr := Cairo.rectangle 0 0 width bw cr in
  let cr := Cairo.fill cr in
  (* Bottom *)
  let cr := Cairo.rectangle 0 (height - bw) width bw cr in
  let cr := Cairo.fill cr in
  (* Left *)
  let cr := Cairo.rectangle 0 bw bw (height - 2 * bw) cr in
  let cr := Cairo.fill cr in
  (* Right *)
  let cr := Cairo.rectangle (width - bw) bw bw (height - 2 * bw) cr in
  let cr := Cairo.fill cr in
  cr.

Definition interval_ms : Z := 16.

Definition _start_fade (st : state) : result bool * state :=
  if (fade (self st) <=? 0)%float then
    (Ok false, on_gtk quit st)
  else
    match PyNum.py_int
            (PyNum.div_int (PyNum.mul_int (fade (self st)) 1000) interval_ms)
    with
    | Ok n =>
        let steps := Z.max 1 n in
        let st :=
          on_self (set_alpha_step (PyNum.div_int (alpha (self st)) steps)) st in
        match timeout_add interval_ms cb_fade_tick (gtk st) with
        | (Ok _, t) => (Ok false, {| self := self st; gtk := t |})
        | (Raise e, t) => (Raise e, {| self := self st; gtk := t |})
        end
    | Raise e => (Raise e, st)
    end.

(** [for win in self.windows: child = win.get_child(); if child:
    child.queue_draw()], from window number [i] on. *)
Fixpoint queue_draws (i : nat) (ws : list Window) (t : toolkit) : toolkit :=
  match ws with
  | [] => t
  | win :: ws' =>
      let t := match child win with
               | Some _ => queue_draw i t
               | None => t
               end in
      queue_draws (S i) ws' t
  end.

Definition _fade_tick (st : state) : result bool * state :=
  match alpha_step (self st) with
  | None => (Raise AttributeError, st)
  | Some d =>
      let st := on_self (set_alpha (alpha (self st) - d)%float) st in
      if (alpha (self st) <=? 0)%float then
        (Ok false, on_gtk quit st)
      else
        (Ok true, on_gtk (queue_draws 0 (windows (self st))) st)
  end.

(** *** The main loop *)

Definition call (cb : callback) (st : state) : result bool * state :=
  match cb with
  | cb_start_fade => _start_fade st
  | cb_fade_tick => _fade_tick st
  | cb_draw_border => (Ok false, st)
  end.

(** One timeout source fires: its callback runs; the source stays when the
    callback returns [True] and goes otherwise (an exception that leaves
    the callback is reported and the source goes). *)
Definition dispatch (st : state) : state :=
  match timers (gtk st) with
  | [] => st
  | (ms, cb) :: rest =>
      let st := on_gtk (set_timers rest) st in
      match call cb st with
      | (Ok true, st) =>
          on_gtk (fun t => set_timers (timers t ++ [(ms, cb)]) t) st
      | (Ok false, st) => st
      | (Raise e, st) => on_gtk (report e) st
      end
  end.

(** The loop runs sources until [quit] was called or none is left; [fuel]
    bounds the number of firings looked at. *)
Fixpoint main_loop (fuel : nat) (st : state) : state :=
  match fuel with
  | O => st
  | S fuel' =>
      if quit_called (gtk st) then st
      else match timers (gtk st) with
           | [] => st
           | _ :: _ => main_loop fuel' (dispatch st)
           end
  end.

(** The toolkit redraws window number [i] at a size of its choosing: the
    draw function of the window's child runs on a fresh context. *)
Definition draw (st : state) (i : nat) (width height : Z)
  : option Cairo.context :=
  match windows (self st) !! i with
  | Some win =>
      match child win with
      | Some area =>
          match draw_func area with
          | Some cb_draw_border =>
              Some (_draw_border (self st) area (Cairo.create width height)
                      width height)
          | _ => None
          end
      | None => None
      end
  | None => None
  end.

(** [app.run([])]: activation, then the loop (an exception that leaves
    [do_activate] is reported like one of a callback, and the loop runs
    on). *)
Definition run (fuel : nat) (st : state) : state :=
  match do_activate st with
  | (Ok _, st) => main_loop fuel st
  | (Raise e, st) => main_loop fuel (on_gtk (report e) st)
  end.

End FlashBorderApp.

(** ** The script: the module body and [main] *)

Module Script.

(** The parsed command line. *)
Record args : Type :=
  { arg_color : string; arg_width : Z; arg_hold : float; arg_fade : float }.


(** The process: the lines written to the error stream, and the
    application object once [main] has built it. *)
Record process : Type :=
  { stderr : list string; app : option FlashBorderApp.state }.

Definition start : process := {| stderr := []; app := None |}.

Definition print_stderr (line : string) (p : process) : process :=
  {| stderr := stderr p ++ [line]; app := app p |}.

(** [try: CDLL("libgtk4-layer-shell.so") except OSError: ...]; [loads]
    says whether the library can be loaded. *)
Definition load_layer_shell (loads : bool) (p : process)
  : result unit * process :=
  if loads then (Ok tt, p)
  else
    let p := print_stderr "Error: libgtk4-layer-shell.so not found." p in
    let p := print_stderr "Install it: pacman -S gtk4-layer-shell" p in
    (Raise (SystemExit 1), p).

Definition fresh_toolkit (displays : list Monitor) : FlashBorderApp.toolkit :=
  {| FlashBorderApp.monitors := displays;
     FlashBorderApp.providers := [];
     FlashBorderApp.presented := [];
     FlashBorderApp.timers := [];
     FlashBorderApp.quit_called := false;
     FlashBorderApp.redraws := [];
     FlashBorderApp.uncaught := [] |}.

Definition main (a : args) (displays : list Monitor) (fuel : nat)
  (p : process) : result unit * process :=
  match parse_color (arg_color a) with
  | Ok color =>
      let app0 :=
        {| FlashBorderApp.self :=
             FlashBorderApp.__init__ color (arg_width a) (arg_hold a)
               (arg_fade a);
           FlashBorderApp.gtk := fresh_toolkit displays |} in
      let st := FlashBorderApp.run fuel app0 in
      (Ok tt, {| stderr := stderr p; app := Some st |})
  | Raise e => (Raise e, p)
  end.

Definition module_body (loads : bool) (a : args) (displays : list Monitor)
  (fuel : nat) : result unit * process :=
  match load_layer_shell loads start with
  | (Ok _, p) => main a displays fuel p
  | (Raise e, p) => (Raise e, p)
  end.

(** The windows the process has created. *)
Definition windows_created (p : process) : list Window :=
  match app p with
  | Some st => FlashBorderApp.windows (FlashBorderApp.self st)
  | None => []
  end.

(** The exit status: that of [sys.exit], 1 for any other exception that
    reaches the top, 0 when [run] returned after [quit]; [None] while the
    loop is still running. *)
Definition exit_status (out : result unit * process) : option Z :=
  match out with
  | (Raise (SystemExit n), _) => Some n
  | (Raise _, _) => Some 1
  | (Ok _, p) =>
      match app p with
      | Some st =>
          if FlashBorderApp.quit_called (FlashBorderApp.gtk st)
          then Some 0 else None
      | None => Some 0
      end
  end.

End Script.

(** * The vocabulary of the properties *)

Import FlashBorderApp.

(** ** Finite checks *)

Definition all_chars : list ascii := map ascii_of_nat (seq 0 256).

Definition option_Z_eqb (a b : option Z) : bool :=
  match a, b with
  | Some x, Some y => x =? y
  | None, None => true
  | _, _ => false
  end.

(** ** Colours *)

Definition unit_interval (x : float) : Prop :=
  (0 <=? x)%float = true /\ (x <=? 1)%float = true.

Definition valid_rgb (c : rgb) : Prop :=
  let '(r, g, b) := c in
  unit_interval r /\ unit_interval g /\ unit_interval b.

(** The value of a hex digit, by its place in the digit strings. *)
Fixpoint index_of (c : ascii) (s : string) (i : Z) : option Z :=
  match s with
  | EmptyString => None
  | String a s' => if Ascii.eqb a c then Some i else index_of c s' (i + 1)
  end.

Definition hex_value (c : ascii) : option Z :=
  match index_of c "0123456789abcdef" 0 with
  | Some d => Some d
  | None => index_of c "0123456789ABCDEF" 0
  end.

(** A channel from its two hex digits, the high one first. *)
Definition byte_of (hi lo : Z) : float :=
  (PyNum.float_of_Z (16 * hi + lo) / 255.0)%float.

Definition hex6 (c1 c2 c3 c4 c5 c6 : ascii) : string :=
  String c1 (String c2 (String c3 (String c4 (String c5 (String c6 ""))))).

(** What the parser of [int(s, 16)] needs of a hex digit, as one test. *)
Definition hex_char_ok (c : ascii) : bool :=
  match PyStr.digit_value c with
  | Some d =>
      (0 <=? d) && (d <? 16)
      && negb (PyStr.is_space c) && negb (PyStr.is_underscore c)
      && negb (PyStr.code c =? 43) && negb (PyStr.code c =? 45)
      && negb (PyStr.code c =? 120) && negb (PyStr.code c =? 88)
      && negb (Ascii.eqb c "#")
      && negb (Ascii.eqb (PyStr.lower_char c) "o")
      && negb (Ascii.eqb (PyStr.lower_char c) "y")
      && negb (Ascii.eqb (PyStr.lower_char c) "p")
  | None => true
  end.


(** ** The border *)

(** The outer frame of thickness [B] of a [W] by [H] window: the pixels of
    the window that lie within [B] of one of its four edges. *)
Definition frame (W H B px py : Z) : Prop :=
  (0 <= px < W /\ 0 <= py < H)
  /\ (py < B \/ H - B <= py \/ px < B \/ W - B <= px).

(** The interior (B,B)-(W-B,H-B). *)
Definition interior (W H B px py : Z) : Prop :=
  B <= px < W - B /\ B <= py < H - B.

(** ** The application at its stages *)

(** The application [main] builds, before [run]. *)
Definition fresh_app (c : rgb) (bw : Z) (h f : float)
  (displays : list Monitor) : state :=
  {| self := __init__ c bw h f; gtk := Script.fresh_toolkit displays |}.

(** The window [_create_overlay] returns for a display. *)
Definition overlay (m : Monitor) : Window :=
  {| decorated := false;
     layer := Some LayerShell.OVERLAY;
     namespace := Some "dingutil-flash"%string;
     monitor := Some m;
     keyboard_mode := Some LayerShell.KeyboardMode.NONE;
     exclusive_zone := -1;
     anchor := [LayerShell.Edge.TOP; LayerShell.Edge.BOTTOM;
                LayerShell.Edge.LEFT; LayerShell.Edge.RIGHT];
     child := Some {| draw_func := Some cb_draw_border;
                      hexpand := true; vexpand := true |} |}.

(** The hold period is running: its timeout source is the only one, and
    [quit] was not called. *)
Definition hold_pending (st : state) (ms : Z) : Prop :=
  timers (gtk st) = [(ms, cb_start_fade)] /\ quit_called (gtk st) = false.

(** The fade is running with decrement [d]. *)
Definition fading (st : state) (d : float) : Prop :=
  timers (gtk st) = [(interval_ms, cb_fade_tick)]
  /\ quit_called (gtk st) = false
  /\ alpha_step (self st) = Some d.

(** [self.fade * 1000 / interval_ms], the quotient [_start_fade] truncates. *)
Definition fade_quotient (f : float) : float :=
  PyNum.div_int (PyNum.mul_int f 1000) interval_ms.

(** Alpha and the quit flag after [k] firings of the tick, from alpha [a]
    with decrement [d]. *)
Fixpoint fade_sim (k : nat) (a d : float) : float * bool :=
  match k with
  | O => (a, false)
  | S k' =>
      let a' := (a - d)%float in
      if (a' <=? 0)%float then (a', true) else fade_sim k' a' d
  end.



(** ** Binary64 rounding

    What the proofs say of [SpecFloat]'s rounding. *)






(** ** Runs under observation *)

(** What the loop serves: a timeout source fires, or the toolkit redraws
    window number [i] at some size. *)
Inductive event : Type :=
| ev_timeout
| ev_draw (i : nat) (width height : Z).

(** The state, the number of timer firings so far (the current tick), and
    for every draw that happened the tick it fell in, the window, and the
    alpha values its fills used. *)
Record observed : Type :=
  { obs_state : state;
    obs_tick : nat;
    obs_drawn : list (nat * nat * list float) }.

Definition observe (st : state) : observed :=
  {| obs_state := st; obs_tick := 0; obs_drawn := [] |}.

Definition serve (e : event) (o : observed) : observed :=
  match e with
  | ev_timeout =>
      {| obs_state := main_loop 1 (obs_state o);
         obs_tick := S (obs_tick o);
         obs_drawn := obs_drawn o |}
  | ev_draw i width height =>
      match draw (obs_state o) i width height with
      | Some cr =>
          {| obs_state := obs_state o;
             obs_tick := obs_tick o;
             obs_drawn := obs_drawn o ++ [(obs_tick o, i, Cairo.alphas cr)] |}
      | None => o
      end
  end.

Definition serve_all (evs : list event) (o : observed) : observed :=
  fold_left (fun o e => serve e o) evs o.

Definition four (a : float) : list float := [a; a; a; a].

(** ** Further vocabulary *)

(** [k] leading [#] before [s]. *)
Fixpoint hashes (k : nat) (s : string) : string :=
  match k with
  | O => s
  | S k' => String "#" (hashes k' s)
  end.

Definition hex4 (c1 c2 c3 c4 : ascii) : string :=
  String c1 (String c2 (String c3 (String c4 ""))).

Definition hex5 (c1 c2 c3 c4 c5 : ascii) : string :=
  String c1 (hex4 c2 c3 c4 c5).

(** [c] is the key character [k] or, for a lower-case letter [k], its
    capital. *)
Definition case_variant_char (k c : ascii) : Prop :=
  c = k \/ (97 <= PyStr.code k <= 122 /\ PyStr.code c = PyStr.code k - 32).

(** [s] is [key] with any of its letters capitalised. *)
Fixpoint case_variant (key s : string) : Prop :=
  match key, s with
  | EmptyString, EmptyString => True
  | String k key', String c s' =>
      case_variant_char k c /\ case_variant key' s'
  | _, _ => False
  end.

Definition lowercase_letters (s : string) : bool :=
  forallb (fun c => (97 <=? PyStr.code c) && (PyStr.code c <=? 122))
    (list_ascii_of_string s).

(** How many of the painted rectangles cover the pixel. *)
Definition cover_count (cr : Cairo.context) (px py : Z) : nat :=
  length (List.filter (fun r => Cairo.covers r px py)
            (map snd (Cairo.painted cr))).

(** The style sheet [_create_overlay] loads. *)
Definition transparent_css : string := "window { background: transparent; }".

(** The timeout sources the program can have at one time: none, the hold
    period's, or the fade's once the decrement is set. *)
Definition sources_ok (st : state) : Prop :=
  timers (gtk st) = []
  \/ (exists ms, timers (gtk st) = [(ms, cb_start_fade)])
  \/ (timers (gtk st) = [(interval_ms, cb_fade_tick)]
      /\ alpha_step (self st) <> None).

(** The program's invariant between two firings. *)
Definition loop_inv (st : state) : Prop :=
  sources_ok st /\ ~ In AttributeError (uncaught (gtk st)).

(** * Properties *)

(** ** Finite checks over the 256 characters and the 256 channel values *)

Lemma all_chars_complete (c : ascii) : In c all_chars.
Proof.
  unfold all_chars. rewrite <- (ascii_nat_embedding c).
  apply in_map, in_seq. pose proof (nat_ascii_bounded c). lia.
Qed.

Lemma forall_chars (P : ascii -> bool) :
  forallb P all_chars = true -> forall c, P c = true.
Proof.
  intros H c. rewrite forallb_forall in H. apply H, all_chars_complete.
Qed.

Lemma forall_bytes (P : Z -> bool) :
  forallb P (map Z.of_nat (seq 0 256)) = true ->
  forall z, 0 <= z < 256 -> P z = true.
Proof.
  intros H z Hz. rewrite forallb_forall in H. apply H.
  rewrite <- (Z2Nat.id z) by lia. apply in_map, in_seq. lia.
Qed.

Lemma land_255_range (z : Z) : 0 <= Z.land z 255 < 256.
Proof.
  change 255 with (Z.ones 8). rewrite Z.land_ones by lia.
  apply Z.mod_pos_bound. lia.
Qed.

(** ** The colour resolver *)

Lemma channel_unit (val k : Z) : unit_interval (channel val k).
Proof.
  unfold channel.
  pose proof (land_255_range (Z.shiftr val k)) as Hr.
  revert Hr. generalize (Z.land (Z.shiftr val k) 255). intros z Hz.
  assert (H : ((0 <=? PyNum.float_of_Z z / 255.0)%float
               && (PyNum.float_of_Z z / 255.0 <=? 1)%float) = true).
  { revert z Hz. apply forall_bytes. vm_compute. reflexivity. }
  apply andb_true_iff in H. exact H.
Qed.

Lemma NAMED_COLORS_valid (k : string) (v : rgb) :
  NAMED_COLORS !! k = Some v -> valid_rgb v.
Proof.
  intros H. apply elem_of_list_to_map_2 in H.
  unfold NAMED_COLORS_items in H.
  repeat (apply elem_of_cons in H as [H | H];
          [ injection H as _ ->; vm_compute; tauto | ]).
  apply elem_of_nil in H. contradiction.
Qed.

Lemma red_entry : getitem NAMED_COLORS "red" = Ok (1.0, 0.0, 0.0)%float.
Proof. reflexivity. Qed.

Lemma int16_raises (s : string) (e : exn) :
  PyStr.int16 s = Raise e -> e = ValueError.
Proof.
  unfold PyStr.int16.
  destruct (PyStr.read_sign _) as [neg cs].
  destruct (PyStr.read_prefix cs) as [| c r]; [congruence |].
  destruct (PyStr.is_underscore c); [congruence |].
  destruct (PyStr.read_digits _ _ _ _) as [[[v n] rest] |]; [| congruence].
  destruct (n =? 0); [congruence |].
  destruct (PyStr.skip_spaces rest); congruence.
Qed.

Lemma parse_color_valid (name : string) :
  exists c : rgb, parse_color name = Ok c /\ valid_rgb c.
Proof.
  unfold parse_color.
  destruct (NAMED_COLORS !! PyStr.lower name) as [v |] eqn:Hv.
  - exists v. unfold getitem. rewrite Hv. split; [reflexivity |].
    exact (NAMED_COLORS_valid _ _ Hv).
  - rewrite red_entry.
    assert (Hred : valid_rgb (1.0, 0.0, 0.0)%float) by (vm_compute; tauto).
    destruct (PyStr.len _ =? 6); [| eauto].
    destruct (PyStr.int16 _) as [val | e] eqn:Hint.
    + eexists. split; [reflexivity |].
      repeat split; apply channel_unit.
    + apply int16_raises in Hint. subst e. eauto.
Qed.

Lemma parse_color_named_or_hex (name : string) :
  exists c : rgb, parse_color name = Ok c.
Proof. destruct (parse_color_valid name) as [c [H _]]. eauto. Qed.

(** [int(s, 16)] on plain digits, signs, the prefix, underscores and blanks
    (U+0085 and U+00A0 count as blanks, U+001C does not). *)
Example int16_examples :
  map PyStr.int16
    [ "ff9900"; "FF9900"; "0x_fff"; "+0x1_f"; "-fffff"; " ff   "; "0b1111";
      String (ascii_of_nat 133) "fffff"; String (ascii_of_nat 160) "fffff";
      String (ascii_of_nat 28) "fffff";
      "0x"; "1__2ab"; "_12abc"; "12abc_"; "- ffff"; "0xx000"; "zzzzzz" ]%string
  = [ Ok 16750848; Ok 16750848; Ok 4095; Ok 31; Ok (-1048575); Ok 255;
      Ok 725265; Ok 1048575; Ok 1048575; Raise ValueError;
      Raise ValueError; Raise ValueError; Raise ValueError; Raise ValueError;
      Raise ValueError; Raise ValueError; Raise ValueError ].
Proof. vm_compute. reflexivity. Qed.

(** *** The resolver on any str *)

Lemma FromString_raises (b : list Z) (e : exn) :
  Unicode.PyLong_FromString b = Raise e -> e = ValueError.
Proof.
  unfold Unicode.PyLong_FromString.
  destruct (Unicode.read_sign _) as [neg cs].
  destruct (Unicode.read_prefix cs) as [| c r]; [congruence |].
  destruct (c =? 95); [congruence |].
  destruct (Unicode.read_digits _ _ _ _) as [[[v n] rest] |]; [| congruence].
  destruct (n =? 0); [congruence |].
  destruct (Unicode.skip_spaces rest); congruence.
Qed.

(** Every key's value is a valid colour, and every key has a letter from g
    to z: no key is made of hex digits and [#]. *)
Lemma unicode_key_cases (k : Unicode.str) (v : rgb) :
  Unicode.NAMED_COLORS !! k = Some v ->
  valid_rgb v /\ exists c, In c k /\ 103 <= c <= 122.
Proof.
  intros H. apply elem_of_list_to_map_2 in H.
  set (l := map _ _) in H. vm_compute in l. subst l.
  repeat (apply elem_of_cons in H as [H | H];
          [ injection H as -> ->; split; [vm_compute; tauto |];
            first [ eexists; split; [left; reflexivity | lia]
                  | eexists; split; [right; left; reflexivity | lia] ] | ]).
  apply elem_of_nil in H. contradiction.
Qed.

Lemma unicode_red_entry :
  Unicode.getitem Unicode.NAMED_COLORS (Unicode.of_string "red")
  = Ok (1.0, 0.0, 0.0)%float.
Proof. reflexivity. Qed.

Lemma unicode_parse_color_valid {db : Unicode.Database} (name : Unicode.str) :
  exists c : rgb, Unicode.parse_color name = Ok c /\ valid_rgb c.
Proof.
  unfold Unicode.parse_color.
  destruct (Unicode.NAMED_COLORS !! Unicode.lower name) as [v |] eqn:Hv.
  - exists v. unfold Unicode.getitem. rewrite Hv. split; [reflexivity |].
    exact (proj1 (unicode_key_cases _ _ Hv)).
  - rewrite unicode_red_entry.
    assert (Hred : valid_rgb (1.0, 0.0, 0.0)%float) by (vm_compute; tauto).
    destruct (Unicode.len _ =? 6); [| eauto].
    destruct (Unicode.int16 _) as [val | e] eqn:Hint.
    + eexists. split; [reflexivity |].
      repeat split; apply channel_unit.
    + apply FromString_raises in Hint. subst e. eauto.
Qed.

(** An excerpt of the tables at work: six Arabic-Indic digits are a hex
    colour; PIN with the Kelvin sign is pink; ideographic spaces around
    four digits are blanks to [int]; an accented letter is not read. *)
Example parse_color_unicode_examples :
  let parse := @Unicode.parse_color Unicode.excerpt in
  parse [1633; 1634; 1635; 1636; 1637; 1638]
  = Ok (channel 0x123456 16, channel 0x123456 8, channel 0x123456 0)
  /\ parse [80; 73; 78; 8490] = Ok (1.0, 0.4, 0.7)%float
  /\ parse [12288; 102; 102; 57; 57; 12288]
     = Ok (channel 0xff99 16, channel 0xff99 8, channel 0xff99 0)
  /\ parse [233; 102; 102; 57; 57; 48] = Ok (1.0, 0.0, 0.0)%float.
Proof. repeat split; vm_compute; reflexivity. Qed.

(** C3. The colour resolver is total: on every [str], whatever the Unicode
    tables of the interpreter, it returns (it raises nothing), and what it
    returns is a triple whose three components lie in [0, 1]. The same holds
    of the resolver on strings of code points below 256. *)
Theorem parse_color_total :
  (forall (db : Unicode.Database) (name : Unicode.str),
     exists r g b : float,
       Unicode.parse_color name = Ok (r, g, b)
       /\ unit_interval r /\ unit_interval g /\ unit_interval b)
  /\ (forall name : string,
        exists r g b : float,
          parse_color name = Ok (r, g, b)
          /\ unit_interval r /\ unit_interval g /\ unit_interval b).
Proof.
  split.
  - intros db name.
    destruct (unicode_parse_color_valid name) as [[[r g] b] [H Hv]].
    exists r, g, b. split; [exact H | exact Hv].
  - intros name.
    destruct (parse_color_valid name) as [[[r g] b] [H Hv]].
    exists r, g, b. split; [exact H | exact Hv].
Qed.

(** *** What [int(s, 16)] can read *)



















(** The same four strings on the resolver over code points below 256. *)
Example parse_color_hex_examples :
  parse_color "#ff9900" = Ok (1.0, 0.6, 0.0)%float
  /\ parse_color "ff9900" = Ok (1.0, 0.6, 0.0)%float
  /\ parse_color "ff99" = Ok (1.0, 0.0, 0.0)%float
  /\ parse_color "zzzzzz" = Ok (1.0, 0.0, 0.0)%float.
Proof. repeat split; vm_compute; reflexivity. Qed.

(** A name whose lower-case form is a key resolves to the key's value: the
    lookup is insensitive to case. *)
Lemma parse_color_named (name key : string) (v : rgb) :
  NAMED_COLORS !! key = Some v ->
  PyStr.lower name = key ->
  parse_color name = Ok v.
Proof.
  intros Hv <-. unfold parse_color, getitem. rewrite Hv. reflexivity.
Qed.

(** With a leading [#] no key is found (the lookup uses [name.lower()], not
    the stripped [lower]), and no key is a hex number: every [#key] gives the
    last line's colour. *)
Lemma parse_color_hash_key (key : string) (v : rgb) :
  NAMED_COLORS !! key = Some v ->
  parse_color (String "#" key) = Ok (1.0, 0.0, 0.0)%float.
Proof.
  intros H. apply elem_of_list_to_map_2 in H.
  unfold NAMED_COLORS_items in H.
  repeat (apply elem_of_cons in H as [H | H];
          [ injection H as -> _; vm_compute; reflexivity | ]).
  apply elem_of_nil in H. contradiction.
Qed.

(** C2. The named-colour lookup at the key orange: the key itself and its
    upper-case form resolve to the table value (1.0, 0.6, 0.0), and with a
    leading [#] the resolver returns (1.0, 0.0, 0.0) instead. *)
Theorem parse_color_hash_orange :
  NAMED_COLORS !! "orange" = Some (1.0, 0.6, 0.0)%float
  /\ parse_color "orange" = Ok (1.0, 0.6, 0.0)%float
  /\ parse_color "ORANGE" = Ok (1.0, 0.6, 0.0)%float
  /\ parse_color "#orange" = Ok (1.0, 0.0, 0.0)%float
  /\ parse_color "#orange" <> parse_color "orange".
Proof.
  repeat split; try (vm_compute; reflexivity).
  intros H.
  apply (f_equal (fun r => match r with
                           | Ok (_, g, _) => (g =? 0)%float
                           | Raise _ => false
                           end)) in H.
  vm_compute in H. discriminate.
Qed.

(** *** Hex colours *)

Lemma hex_value_digit (c : ascii) : hex_value c = PyStr.digit_value c.
Proof.
  assert (H : option_Z_eqb (hex_value c) (PyStr.digit_value c) = true).
  { revert c. apply forall_chars. vm_compute. reflexivity. }
  destruct (hex_value c), (PyStr.digit_value c); simpl in H;
    try discriminate; [apply Z.eqb_eq in H; congruence | reflexivity].
Qed.

Lemma hex_char_facts (c : ascii) (d : Z) :
  PyStr.digit_value c = Some d ->
  0 <= d < 16
  /\ PyStr.is_space c = false /\ PyStr.is_underscore c = false
  /\ (PyStr.code c =? 43) = false /\ (PyStr.code c =? 45) = false
  /\ (PyStr.code c =? 120) = false /\ (PyStr.code c =? 88) = false
  /\ Ascii.eqb c "#" = false
  /\ PyStr.lower_char c <> "o"%char
  /\ PyStr.lower_char c <> "y"%char
  /\ PyStr.lower_char c <> "p"%char.
Proof.
  intros Hd.
  assert (H : hex_char_ok c = true).
  { revert c Hd. intros c _. revert c. apply forall_chars.
    vm_compute. reflexivity. }
  unfold hex_char_ok in H. rewrite Hd in H.
  repeat (apply andb_true_iff in H as [H ?]).
  repeat match goal with
         | X : negb _ = true |- _ => apply negb_true_iff in X
         end.
  repeat match goal with
         | X : Ascii.eqb (PyStr.lower_char c) _ = false |- _ =>
             apply Ascii.eqb_neq in X
         end.
  repeat split; try assumption; lia.
Qed.

Lemma hex_channels (d1 d2 d3 d4 d5 d6 : Z) :
  0 <= d1 < 16 -> 0 <= d2 < 16 -> 0 <= d3 < 16 ->
  0 <= d4 < 16 -> 0 <= d5 < 16 -> 0 <= d6 < 16 ->
  let val := 16 * (16 * (16 * (16 * (16 * (16 * 0 + d1) + d2) + d3) + d4) + d5) + d6 in
  Z.land (Z.shiftr val 16) 255 = 16 * d1 + d2
  /\ Z.land (Z.shiftr val 8) 255 = 16 * d3 + d4
  /\ Z.land (Z.shiftr val 0) 255 = 16 * d5 + d6.
Proof.
  intros H1 H2 H3 H4 H5 H6 val.
  change 255 with (Z.ones 8).
  rewrite !Z.land_ones, !Z.shiftr_div_pow2 by lia.
  change (2 ^ 16) with 65536. change (2 ^ 8) with 256. change (2 ^ 0) with 1.
  subst val. repeat split; Z.div_mod_to_equations; lia.
Qed.

Lemma int16_hex6 (c1 c2 c3 c4 c5 c6 : ascii) (d1 d2 d3 d4 d5 d6 : Z) :
  PyStr.digit_value c1 = Some d1 -> PyStr.digit_value c2 = Some d2 ->
  PyStr.digit_value c3 = Some d3 -> PyStr.digit_value c4 = Some d4 ->
  PyStr.digit_value c5 = Some d5 -> PyStr.digit_value c6 = Some d6 ->
  PyStr.int16 (hex6 c1 c2 c3 c4 c5 c6)
  = Ok (16 * (16 * (16 * (16 * (16 * (16 * 0 + d1) + d2) + d3) + d4) + d5) + d6).
Proof.
  intros H1 H2 H3 H4 H5 H6.
  destruct (hex_char_facts _ _ H1) as (_ & Hs & Hu & Hp & Hm & _).
  destruct (hex_char_facts _ _ H2) as (_ & _ & _ & _ & _ & Hx & HX & _).
  unfold PyStr.int16, hex6. cbn [list_ascii_of_string PyStr.skip_spaces].
  rewrite Hs. unfold PyStr.read_sign. rewrite Hp, Hm.
  unfold PyStr.read_prefix. rewrite Hx, HX, andb_false_r. rewrite Hu.
  cbn [PyStr.read_digits]. rewrite H1, H2, H3, H4, H5, H6.
  reflexivity.
Qed.

Lemma hex6_not_named (c1 c2 c3 c4 c5 c6 : ascii) (d1 : Z) :
  PyStr.digit_value c1 = Some d1 ->
  NAMED_COLORS !! PyStr.lower (hex6 c1 c2 c3 c4 c5 c6) = None
  /\ NAMED_COLORS !! PyStr.lower (String "#" (hex6 c1 c2 c3 c4 c5 c6)) = None.
Proof.
  intros H1.
  destruct (hex_char_facts _ _ H1) as (_ & _ & _ & _ & _ & _ & _ & _ & Ho & Hy & Hp).
  split; apply not_elem_of_list_to_map_1; cbn; intros H;
    repeat (apply elem_of_cons in H as [H | H]; [congruence |]);
    apply elem_of_nil in H; contradiction.
Qed.

(** C10. Hex decoding is insensitive to case: for six hex digits in any mix
    of cases, with or without a leading [#], the resolver returns the three
    channels, each made of its two digits (the high one first) and divided
    by 255. *)
Theorem parse_color_hex6 (c1 c2 c3 c4 c5 c6 : ascii) (d1 d2 d3 d4 d5 d6 : Z) :
  hex_value c1 = Some d1 -> hex_value c2 = Some d2 ->
  hex_value c3 = Some d3 -> hex_value c4 = Some d4 ->
  hex_value c5 = Some d5 -> hex_value c6 = Some d6 ->
  parse_color (hex6 c1 c2 c3 c4 c5 c6)
  = Ok (byte_of d1 d2, byte_of d3 d4, byte_of d5 d6)
  /\ parse_color (String "#" (hex6 c1 c2 c3 c4 c5 c6))
     = Ok (byte_of d1 d2, byte_of d3 d4, byte_of d5 d6).
Proof.
  rewrite !hex_value_digit. intros H1 H2 H3 H4 H5 H6.
  destruct (hex6_not_named c1 c2 c3 c4 c5 c6 d1 H1) as [Hn Hn'].
  pose proof (int16_hex6 _ _ _ _ _ _ _ _ _ _ _ _ H1 H2 H3 H4 H5 H6) as Hint.
  assert (Hstrip : PyStr.lstrip "#" (hex6 c1 c2 c3 c4 c5 c6)
                   = hex6 c1 c2 c3 c4 c5 c6).
  { destruct (hex_char_facts _ _ H1) as (_ & _ & _ & _ & _ & _ & _ & Hh & _).
    unfold hex6. cbn [PyStr.lstrip]. rewrite Hh. reflexivity. }
  assert (Hstrip' : PyStr.lstrip "#" (String "#" (hex6 c1 c2 c3 c4 c5 c6))
                    = hex6 c1 c2 c3 c4 c5 c6).
  { cbn [PyStr.lstrip]. change (Ascii.eqb "#" "#") with true. cbv iota.
    exact Hstrip. }
  destruct (hex_channels d1 d2 d3 d4 d5 d6) as (Hr & Hg & Hb);
    try (eapply hex_char_facts; eassumption).
  assert (Hgoal : match PyStr.int16 (hex6 c1 c2 c3 c4 c5 c6) with
                  | Ok val => Ok (channel val 16, channel val 8, channel val 0)
                  | Raise ValueError => getitem NAMED_COLORS "red"
                  | Raise e => Raise e
                  end = Ok (byte_of d1 d2, byte_of d3 d4, byte_of d5 d6)).
  { rewrite Hint. unfold channel, byte_of. rewrite Hr, Hg, Hb. reflexivity. }
  unfold parse_color. rewrite Hn, Hn', Hstrip, Hstrip'.
  change (PyStr.len (hex6 c1 c2 c3 c4 c5 c6) =? 6) with true. cbv iota.
  split; exact Hgoal.
Qed.

(** The theorem at the digits of "Ff9900". *)
Lemma parse_color_hex6_witness :
  parse_color "Ff9900" = Ok (1.0, 0.6, 0.0)%float
  /\ parse_color "#Ff9900" = Ok (1.0, 0.6, 0.0)%float.
Proof.
  exact (parse_color_hex6 "F" "f" "9" "9" "0" "0" 15 15 9 9 0 0
           eq_refl eq_refl eq_refl eq_refl eq_refl eq_refl).
Defined.

(** ** The border *)

Lemma draw_border_painted (s : self_t) (area : DrawingArea)
  (W H : Z) :
  let bw := border_width s in
  map snd (Cairo.painted
             (_draw_border s area (Cairo.create W H) W H))
  = [ {| Cairo.rect_x := 0; Cairo.rect_y := 0;
         Cairo.rect_width := W; Cairo.rect_height := bw |};
      {| Cairo.rect_x := 0; Cairo.rect_y := H - bw;
         Cairo.rect_width := W; Cairo.rect_height := bw |};
      {| Cairo.rect_x := 0; Cairo.rect_y := bw;
         Cairo.rect_width := bw; Cairo.rect_height := H - 2 * bw |};
      {| Cairo.rect_x := W - bw; Cairo.rect_y := bw;
         Cairo.rect_width := bw; Cairo.rect_height := H - 2 * bw |} ].
Proof.
  unfold _draw_border.
  destruct (color s) as [[r g] b]. reflexivity.
Qed.

Lemma draw_border_alphas (s : self_t) (area : DrawingArea)
  (cr : Cairo.context) (W H : Z) :
  Cairo.painted cr = [] -> Cairo.path cr = [] ->
  let a := alpha s in
  Cairo.alphas (_draw_border s area cr W H) = [a; a; a; a].
Proof.
  intros Hp Hq. unfold _draw_border, Cairo.alphas.
  destruct (color s) as [[r g] b].
  cbn. rewrite Hp, Hq. reflexivity.
Qed.

Lemma filled_iff (cr : Cairo.context) (px py : Z) :
  Cairo.filled cr px py = true <->
  (0 <= px < Cairo.cr_width cr /\ 0 <= py < Cairo.cr_height cr)
  /\ exists r, In r (map snd (Cairo.painted cr))
               /\ Cairo.covers r px py = true.
Proof.
  unfold Cairo.filled, Cairo.on_surface.
  rewrite !andb_true_iff, existsb_exists, !Z.leb_le, !Z.ltb_lt.
  split.
  - intros [Hs [sr [Hin Hc]]]. split; [lia |].
    exists (snd sr). split; [apply in_map, Hin | exact Hc].
  - intros [Hs [r [Hin Hc]]]. split; [lia |].
    apply in_map_iff in Hin as [sr [<- Hin]]. eauto.
Qed.

Lemma covers_iff (x y w h px py : Z) :
  Cairo.covers {| Cairo.rect_x := x; Cairo.rect_y := y;
                  Cairo.rect_width := w; Cairo.rect_height := h |} px py = true
  <-> Z.min x (x + w) <= px < Z.max x (x + w)
      /\ Z.min y (y + h) <= py < Z.max y (y + h).
Proof.
  unfold Cairo.covers. cbn.
  rewrite !andb_true_iff, !Z.leb_le, !Z.ltb_lt. lia.
Qed.

(** C6. For a window of width W and height H and a border width B with
    2B < min(W, H), the pixels the draw routine fills are exactly those of
    the outer frame of thickness B, and no pixel of the interior
    (B,B)-(W-B,H-B) is filled. *)
Theorem draw_border_frame (s : self_t) (area : DrawingArea)
  (W H px py : Z) :
  let B := border_width s in
  let cr := _draw_border s area (Cairo.create W H) W H in
  2 * B < Z.min W H ->
  (Cairo.filled cr px py = true <-> frame W H B px py)
  /\ (interior W H B px py -> Cairo.filled cr px py = false).
Proof.
  intros B cr HB.
  assert (Hiff : Cairo.filled cr px py = true <-> frame W H B px py).
  { rewrite filled_iff. subst cr. rewrite draw_border_painted.
    fold B.
    replace (Cairo.cr_width _) with W
      by (unfold _draw_border;
          destruct (color s) as [[? ?] ?]; reflexivity).
    replace (Cairo.cr_height _) with H
      by (unfold _draw_border;
          destruct (color s) as [[? ?] ?]; reflexivity).
    unfold frame. split.
    - intros [Hs [r [Hin Hc]]]. split; [exact Hs |].
      cbn in Hin.
      destruct Hin as [<- | [<- | [<- | [<- | []]]]];
        apply covers_iff in Hc; lia.
    - intros [Hs Hedge]. split; [exact Hs |].
      destruct Hedge as [Ht | [Hb | [Hl | Hr]]].
      + eexists. split; [left; reflexivity |]. apply covers_iff. lia.
      + eexists. split; [right; left; reflexivity |]. apply covers_iff. lia.
      + destruct (Z_lt_le_dec py B);
          [eexists; split; [left; reflexivity |]; apply covers_iff; lia |].
        destruct (Z_lt_le_dec py (H - B));
          [| eexists; split; [right; left; reflexivity |];
             apply covers_iff; lia].
        eexists. split; [right; right; left; reflexivity |].
        apply covers_iff. lia.
      + destruct (Z_lt_le_dec py B);
          [eexists; split; [left; reflexivity |]; apply covers_iff; lia |].
        destruct (Z_lt_le_dec py (H - B));
          [| eexists; split; [right; left; reflexivity |];
             apply covers_iff; lia].
        eexists. split; [right; right; right; left; reflexivity |].
        apply covers_iff. lia. }
  split; [exact Hiff |].
  intros Hi. destruct (Cairo.filled cr px py) eqn:Hf; [| reflexivity].
  exfalso. destruct Hiff as [Hfr _]. specialize (Hfr eq_refl).
  unfold frame, interior in *. lia.
Qed.

(** The theorem on a 100 by 50 window with the default width 6, at a pixel
    of the frame and at one of the interior. *)
Lemma draw_border_frame_witness :
  let s := __init__ (1.0, 0.6, 0.0)%float 6 0.4 0.3 in
  let area := {| draw_func := Some cb_draw_border;
                 hexpand := true; vexpand := true |} in
  let cr := _draw_border s area (Cairo.create 100 50) 100 50 in
  (Cairo.filled cr 3 20 = true <-> frame 100 50 6 3 20)
  /\ (interior 100 50 6 50 25 -> Cairo.filled cr 50 25 = false).
Proof.
  intros s area cr. split.
  - apply (draw_border_frame s area 100 50 3 20). cbn. lia.
  - apply (draw_border_frame s area 100 50 50 25). cbn. lia.
Defined.

(** ** Floats: order, and what [int], [round] and [ceil] return *)

Lemma positive_not_le_zero (x : float) :
  (0 <? x)%float = true -> (x <=? 0)%float = false.
Proof.
  rewrite ltb_spec, leb_spec.
  change (Prim2SF 0) with (S754_zero false).
  unfold SFltb, SFleb.
  destruct (Prim2SF x) as [s | s | | s m e]; cbn;
    try destruct s; intros H; try discriminate; reflexivity.
Qed.

(** [int] truncates: on a finite float of mantissa [m] and exponent [e], the
    result has the float's sign and the magnitude [a] with
    [a <= m * 2^e < a + 1]. *)
Lemma trunc_SF_finite (s : bool) (m : positive) (e t : Z) :
  PyNum.trunc_SF (S754_finite s m e) = Ok t ->
  let a := Z.abs t in
  t = (if s then - a else a)
  /\ (0 <= e -> a = Zpos m * 2 ^ e)
  /\ (e < 0 -> a * 2 ^ (- e) <= Zpos m < (a + 1) * 2 ^ (- e)).
Proof.
  unfold PyNum.trunc_SF. intros H. injection H as <-.
  destruct e as [| p | p].
  - rewrite Z.shiftl_mul_pow2 by lia. change (2 ^ 0) with 1.
    destruct s; cbv zeta;
      [rewrite Z.abs_opp |]; rewrite Z.abs_eq by lia;
      repeat split; lia.
  - rewrite Z.shiftl_mul_pow2 by lia.
    assert (0 < 2 ^ Z.pos p) by (apply Z.pow_pos_nonneg; lia).
    assert (0 <= Z.pos m * 2 ^ Z.pos p) by (apply Z.mul_nonneg_nonneg; lia).
    destruct s; cbv zeta;
      [rewrite Z.abs_opp |]; rewrite Z.abs_eq by assumption;
      repeat split; try lia.
  - rewrite Z.shiftr_div_pow2 by lia.
    change (- Z.neg p) with (Z.pos p).
    assert (Hp : 0 < 2 ^ Z.pos p) by (apply Z.pow_pos_nonneg; lia).
    pose proof (Z.div_pos (Z.pos m) (2 ^ Z.pos p) ltac:(lia) Hp) as Hq.
    pose proof (Z.mul_div_le (Z.pos m) (2 ^ Z.pos p) Hp) as Hlo.
    pose proof (Z.mul_succ_div_gt (Z.pos m) (2 ^ Z.pos p) Hp) as Hhi.
    destruct s; cbv zeta;
      [rewrite Z.abs_opp |]; rewrite Z.abs_eq by lia;
      repeat split; try lia; intros _; nia.
Qed.

(** [ceil] on a positive finite float: the least integer not below it. *)
Lemma ceil_SF_positive (m : positive) (e c : Z) :
  PyNum.ceil_SF (S754_finite false m e) = Ok c ->
  (0 <= e -> c = Zpos m * 2 ^ e)
  /\ (e < 0 -> (c - 1) * 2 ^ (- e) < Zpos m <= c * 2 ^ (- e)).
Proof.
  unfold PyNum.ceil_SF. destruct e as [| p | p]; cbv beta iota zeta;
    intros H; injection H as <-.
  - rewrite Z.shiftl_mul_pow2 by lia. split; [reflexivity | lia].
  - rewrite Z.shiftl_mul_pow2 by lia. split; [reflexivity | lia].
  - rewrite Z.shiftr_div_pow2, Z.shiftl_mul_pow2 by lia.
    change (- Z.neg p) with (Z.pos p).
    assert (Hp : 0 < 2 ^ Z.pos p) by (apply Z.pow_pos_nonneg; lia).
    pose proof (Z.mul_div_le (Z.pos m) (2 ^ Z.pos p) Hp) as Hlo.
    pose proof (Z.mul_succ_div_gt (Z.pos m) (2 ^ Z.pos p) Hp) as Hhi.
    revert Hlo Hhi. generalize (Z.pos m / 2 ^ Z.pos p). intros q Hlo Hhi.
    split; [lia |]. intros _.
    change (match q * 2 ^ Z.pos p with
            | Z.pos q0 => (m =? q0)%positive
            | _ => false
            end) with (Z.pos m =? q * 2 ^ Z.pos p).
    destruct (Z.pos m =? q * 2 ^ Z.pos p) eqn:He; cbv iota.
    + apply Z.eqb_eq in He. nia.
    + apply Z.eqb_neq in He. nia.
Qed.

(** The three conversions on the numbers of the spec and at the ties. *)
Example py_int_examples :
  map PyNum.py_int [18.75; 10; 0.0625; -0.5; 2.5; infinity; nan]%float
  = [Ok 18; Ok 10; Ok 0; Ok 0; Ok 2; Raise OverflowError; Raise ValueError].
Proof. vm_compute. reflexivity. Qed.

Example py_round_examples :
  map PyNum.py_round [18.75; 10; 0.0625; 0.5; 1.5; 2.5; -0.5; 18.5]%float
  = [Ok 19; Ok 10; Ok 0; Ok 0; Ok 2; Ok 2; Ok 0; Ok 18].
Proof. vm_compute. reflexivity. Qed.

Example py_ceil_examples :
  map PyNum.py_ceil [18.75; 10; 0.0625; -0.5; 12.5]%float
  = [Ok 19; Ok 10; Ok 1; Ok 0; Ok 13].
Proof. vm_compute. reflexivity. Qed.

(** ** The start of the fade *)

Lemma timeout_add_interval (cb : callback) (t : toolkit) :
  timeout_add interval_ms cb t
  = (Ok tt, set_timers (timers t ++ [(interval_ms, cb)]) t).
Proof. reflexivity. Qed.

(** What [_start_fade] does on its second branch. *)
Lemma start_fade_unfold (st : state) (n : Z) :
  (0 <? fade (self st))%float = true ->
  PyNum.py_int (fade_quotient (fade (self st))) = Ok n ->
  _start_fade st
  = (Ok false,
     {| self := set_alpha_step
                  (PyNum.div_int (alpha (self st)) (Z.max 1 n)) (self st);
        gtk := set_timers (timers (gtk st) ++ [(interval_ms, cb_fade_tick)])
                 (gtk st) |}).
Proof.
  intros Hpos Hn. unfold _start_fade.
  rewrite (positive_not_le_zero _ Hpos).
  fold (fade_quotient (fade (self st))). rewrite Hn.
  reflexivity.
Qed.

(** C1 as amended. When the fade phase starts with a positive fade duration
    whose quotient fade * 1000 / 16 is finite, the step count is
    max(1, int(fade * 1000 / 16)), the truncation of the quotient, and the
    per-tick decrement is the current alpha divided by that step count; alpha
    itself is not changed, the tick is scheduled every 16 ms and the callback
    returns False. *)
Theorem start_fade_steps (st : state) (n : Z) :
  (0 <? fade (self st))%float = true ->
  PyNum.py_int (fade_quotient (fade (self st))) = Ok n ->
  let steps := Z.max 1 n in
  let st' := snd (_start_fade st) in
  fst (_start_fade st) = Ok false
  /\ alpha_step (self st') = Some (PyNum.div_int (alpha (self st)) steps)
  /\ alpha (self st') = alpha (self st)
  /\ timers (gtk st') = timers (gtk st) ++ [(16, cb_fade_tick)].
Proof.
  intros Hpos Hn steps st'. subst st'.
  rewrite (start_fade_unfold st n Hpos Hn). repeat split.
Qed.

(** The theorem at the default fade of 0.3 s: 18 steps. *)
Lemma start_fade_steps_witness :
  let st := fresh_app (1.0, 0.6, 0.0)%float 6 0.4 0.3 [0%nat] in
  let st' := snd (_start_fade st) in
  fst (_start_fade st) = Ok false
  /\ alpha_step (self st') = Some (PyNum.div_int 1.0 18)
  /\ alpha (self st') = 1.0%float
  /\ timers (gtk st') = [] ++ [(16, cb_fade_tick)].
Proof.
  intros st.
  apply (start_fade_steps st 18); vm_compute; reflexivity.
Defined.

(** C1 as stated fails at the default fade of 0.3 s: the quotient is 18.75,
    which rounds to 19, and the program takes 18 steps, so the decrement is
    alpha / 18 and not alpha / 19. *)
Lemma start_fade_not_rounded :
  let st := fresh_app (1.0, 0.6, 0.0)%float 6 0.4 0.3 [0%nat] in
  (0 <? fade (self st))%float = true
  /\ fade_quotient (fade (self st)) = 18.75%float
  /\ PyNum.py_round (fade_quotient (fade (self st))) = Ok 19
  /\ alpha_step (self (snd (_start_fade st)))
     = Some (PyNum.div_int (alpha (self st)) 18)
  /\ alpha_step (self (snd (_start_fade st)))
     <> Some (PyNum.div_int (alpha (self st)) (Z.max 1 19)).
Proof.
  repeat split; try (vm_compute; reflexivity).
  intros H.
  apply (f_equal (fun o => match o with
                           | Some d => (d =? 1.0 / 19.0)%float
                           | None => false
                           end)) in H.
  vm_compute in H. discriminate.
Qed.

(** ** The loop at the end of the hold period *)

Lemma main_loop_quit (fuel : nat) (st : state) :
  quit_called (gtk st) = true -> main_loop fuel st = st.
Proof. intros H. destruct fuel; cbn; [| rewrite H]; reflexivity. Qed.

Lemma main_loop_step (fuel : nat) (st : state) (t : Z * callback)
  (rest : list (Z * callback)) :
  quit_called (gtk st) = false ->
  timers (gtk st) = t :: rest ->
  main_loop (S fuel) st = main_loop fuel (dispatch st).
Proof. intros Hq Ht. cbn. rewrite Hq, Ht. reflexivity. Qed.

Lemma start_fade_quits (st : state) :
  (fade (self st) <=? 0)%float = true ->
  _start_fade st = (Ok false, on_gtk quit st).
Proof. intros H. unfold _start_fade. rewrite H. reflexivity. Qed.

(** C7. With a fade duration <= 0, when the hold period elapses the program
    goes straight to termination: [quit] is called, no fade tick is
    scheduled (no timeout source is left), no repaint is requested, and
    alpha and the other attributes keep their values, however long the loop
    is observed. *)
Theorem fade_skip (st : state) (ms : Z) (fuel : nat) :
  (fade (self st) <=? 0)%float = true ->
  hold_pending st ms ->
  let st' := main_loop (S fuel) st in
  quit_called (gtk st') = true
  /\ timers (gtk st') = []
  /\ redraws (gtk st') = redraws (gtk st)
  /\ uncaught (gtk st') = uncaught (gtk st)
  /\ self st' = self st.
Proof.
  intros Hf [Ht Hq] st'. subst st'.
  rewrite (main_loop_step _ _ _ _ Hq Ht).
  assert (Hd : dispatch st = on_gtk quit (on_gtk (set_timers []) st)).
  { unfold dispatch. rewrite Ht. cbn [call].
    rewrite start_fade_quits by exact Hf. reflexivity. }
  rewrite Hd, main_loop_quit by reflexivity.
  repeat split.
Qed.

Lemma create_overlays_spec (ms : list Monitor) (st : state) :
  let st' := create_overlays ms st in
  windows (self st') = windows (self st) ++ map overlay ms
  /\ presented (gtk st') = presented (gtk st) ++ map overlay ms
  /\ timers (gtk st') = timers (gtk st)
  /\ quit_called (gtk st') = quit_called (gtk st)
  /\ redraws (gtk st') = redraws (gtk st)
  /\ alpha (self st') = alpha (self st)
  /\ alpha_step (self st') = alpha_step (self st)
  /\ fade (self st') = fade (self st)
  /\ hold (self st') = hold (self st)
  /\ color (self st') = color (self st)
  /\ border_width (self st') = border_width (self st).
Proof.
  revert st. induction ms as [| m ms IH]; intros st; cbn.
  - rewrite !app_nil_r. repeat split.
  - specialize (IH (on_gtk (present (overlay m))
                      (on_self (append_window (overlay m))
                         (on_gtk (add_provider
                                    "window { background: transparent; }")
                            st)))).
    cbn in IH. destruct IH as (Hw & Hp & Hrest).
    change (fold_left _ _ _) with
      {| decorated := false; layer := Some LayerShell.OVERLAY;
         namespace := Some "dingutil-flash"%string; monitor := Some m;
         keyboard_mode := Some LayerShell.KeyboardMode.NONE;
         exclusive_zone := -1;
         anchor := [LayerShell.Edge.TOP; LayerShell.Edge.BOTTOM;
                    LayerShell.Edge.LEFT; LayerShell.Edge.RIGHT];
         child := None |}.
    cbn. fold (overlay m).
    rewrite Hw, Hp, <- !app_assoc. split; [reflexivity |].
    split; [reflexivity |]. exact Hrest.
Qed.

(** What activation leaves of a fresh application when the hold time is a
    valid interval: the hold period is running, alpha is 1.0, nothing was
    asked to redraw, and there is one overlay per display. *)
Lemma activate_fresh (c : rgb) (bw : Z) (h f : float)
  (displays : list Monitor) (ms : Z) :
  PyNum.py_int (PyNum.mul_int h 1000) = Ok ms ->
  0 <= ms < 2 ^ 32 ->
  exists st,
    do_activate (fresh_app c bw h f displays) = (Ok tt, st)
    /\ hold_pending st ms
    /\ alpha (self st) = 1.0%float
    /\ fade (self st) = f
    /\ redraws (gtk st) = []
    /\ windows (self st) = map overlay displays.
Proof.
  intros Hms Hrange. unfold do_activate.
  change (monitors (gtk (fresh_app c bw h f displays))) with displays.
  destruct (create_overlays_spec displays (fresh_app c bw h f displays))
    as (Hw & _ & Ht & Hq & Hr & Ha & _ & Hf & Hh & _).
  rewrite Hh. change (hold (self (fresh_app c bw h f displays))) with h.
  rewrite Hms. unfold timeout_add.
  replace ((0 <=? ms) && (ms <? 2 ^ 32)) with true
    by (symmetry; apply andb_true_iff; split;
        [apply Z.leb_le | apply Z.ltb_lt]; lia).
  eexists. split; [reflexivity |].
  unfold hold_pending. cbn. rewrite Ht, Hq, Hr, Ha, Hf, Hw.
  repeat split.
Qed.

(** The theorem on the state activation leaves for --fade 0 on two
    displays: the loop ends at the first firing. *)
Lemma fade_skip_witness :
  let st := snd (do_activate
                   (fresh_app (1.0, 0.6, 0.0)%float 6 0.4 0.0 [0%nat; 1%nat])) in
  let st' := main_loop 5 st in
  quit_called (gtk st') = true
  /\ timers (gtk st') = []
  /\ redraws (gtk st') = redraws (gtk st)
  /\ uncaught (gtk st') = uncaught (gtk st)
  /\ self st' = self st.
Proof.
  intros st.
  apply (fade_skip st 400 4); [reflexivity | split; reflexivity].
Defined.

(** ** Binary64 rounding, from [SpecFloat] *)






(** *** Shifting right *)





(** *** Rounding *)








(** *** Values and order of the positive finite floats *)









(** *** Subtraction of positive floats *)





(** *** The same on the floats of the machine *)







(** *** Signs: conversion of a positive int, and division *)








(** *** Step counts up to [2 ^ 53]: the decrement is above [2 ^ -54] *)








(** *** How far one tick lowers alpha, and how large the decrement is *)






(** ** The fade *)


Lemma fade_tick_dispatch (st : state) (d : float) :
  fading st d ->
  let a' := (alpha (self st) - d)%float in
  alpha (self (dispatch st)) = a'
  /\ if (a' <=? 0)%float
     then quit_called (gtk (dispatch st)) = true
     else fading (dispatch st) d.
Proof.
  intros (Ht & Hq & Hd) a'. unfold dispatch. rewrite Ht.
  cbn [call]. unfold _fade_tick. cbn [on_gtk on_self self gtk alpha_step].
  rewrite Hd. cbn [set_alpha alpha].
  fold a'. destruct (a' <=? 0)%float eqn:Ha.
  - split; reflexivity.
  - split; [reflexivity |]. unfold fading. cbn.
    assert (Hqd : forall ws i t,
               timers (queue_draws i ws t) = timers t
               /\ quit_called (queue_draws i ws t) = quit_called t).
    { induction ws as [| w ws IH]; intros i t; cbn; [auto |].
      destruct (IH (S i) (match child w with
                          | Some _ => queue_draw i t
                          | None => t
                          end)) as [-> ->].
      destruct (child w); auto. }
    destruct (Hqd (windows (self st)) 0%nat (set_timers [] (gtk st)))
      as [-> ->].
    repeat split; [exact Hq | exact Hd].
Qed.

Lemma main_loop_fade (k : nat) (st : state) (d : float) :
  fading st d ->
  alpha (self (main_loop k st)) = fst (fade_sim k (alpha (self st)) d)
  /\ quit_called (gtk (main_loop k st)) = snd (fade_sim k (alpha (self st)) d).
Proof.
  revert st. induction k as [| k IH]; intros st Hf.
  - cbn. destruct Hf as (_ & Hq & _). auto.
  - pose proof Hf as (Ht & Hq & _).
    rewrite (main_loop_step _ _ _ _ Hq Ht).
    destruct (fade_tick_dispatch st d Hf) as [Ha Hnext].
    cbn [fade_sim]. cbv zeta in Ha, Hnext.
    destruct (alpha (self st) - d <=? 0)%float.
    + rewrite main_loop_quit by exact Hnext. cbn. auto.
    + rewrite <- Ha. apply IH, Hnext.
Qed.





Lemma start_fade_dispatch (st : state) (ms n : Z) :
  hold_pending st ms ->
  (0 <? fade (self st))%float = true ->
  PyNum.py_int (fade_quotient (fade (self st)))
  = Ok n ->
  let d := PyNum.div_int (alpha (self st)) (Z.max 1 n) in
  fading (dispatch st) d
  /\ alpha (self (dispatch st)) = alpha (self st)
  /\ redraws (gtk (dispatch st)) = redraws (gtk st).
Proof.
  intros [Ht Hq] Hpos Hn d. unfold dispatch. rewrite Ht. cbn [call].
  rewrite (start_fade_unfold (on_gtk (set_timers []) st) n Hpos Hn).
  unfold fading. cbn. fold d. rewrite Hq. repeat split.
Qed.

(** *** The fade for every step count *)


Lemma fade_sim_stuck (k : nat) (a d : float) :
  (a - d)%float = a -> (a <=? 0)%float = false ->
  fade_sim k a d = (a, false).
Proof.
  intros Hs Hz. induction k as [| k IH]; [reflexivity |].
  cbn [fade_sim]. cbv zeta. rewrite Hs, Hz. exact IH.
Qed.









(** The first tick lowers alpha at a step count of [2 ^ 54 - 2] and no
    longer at [2 ^ 54]. *)
Example first_tick_threshold :
  (1 - PyNum.div_int 1 (2 ^ 54 - 2) <? 1)%float = true
  /\ (1 - PyNum.div_int 1 (2 ^ 54) <? 1)%float = false.
Proof. split; vm_compute; reflexivity. Qed.




(** Beyond any bound on the step count the fade need not end at all: for a
    fade of 1e18 s the decrement is below half an ulp of 1.0, alpha stays
    1.0 at every tick and [quit] is never called. *)
Lemma fade_never_ends (k : nat) :
  let st := snd (do_activate
                   (fresh_app (1.0, 0.6, 0.0)%float 6 0.4 1e18 [0%nat])) in
  alpha (self (main_loop (S k) st)) = 1.0%float
  /\ quit_called (gtk (main_loop (S k) st)) = false.
Proof.
  intros st.
  assert (Hhold : hold_pending st 400) by (split; reflexivity).
  assert (Hpos : (0 <? fade (self st))%float = true) by reflexivity.
  assert (Hn : PyNum.py_int (fade_quotient (fade (self st)))
               = Ok 62500000000000000000) by (vm_compute; reflexivity).
  destruct (start_fade_dispatch st 400 _ Hhold Hpos Hn) as (Hfad & Ha1 & _).
  cbv zeta in Hfad.
  destruct Hhold as [Ht Hq].
  rewrite (main_loop_step _ _ _ _ Hq Ht).
  destruct (main_loop_fade k _ _ Hfad) as [H1 H2].
  rewrite H1, H2, Ha1.
  rewrite fade_sim_stuck; [split; reflexivity | | ]; vm_compute; reflexivity.
Qed.

(** ** The overlays and their shared alpha *)

Lemma draw_alphas (st : state) (i : nat) (width height : Z)
  (cr : Cairo.context) :
  draw st i width height = Some cr ->
  Cairo.alphas cr = four (alpha (self st)).
Proof.
  unfold draw.
  destruct (windows (self st) !! i) as [win |]; [| discriminate].
  destruct (child win) as [area |]; [| discriminate].
  destruct (draw_func area) as [[] |]; try discriminate.
  intros H. injection H as <-.
  apply draw_border_alphas; reflexivity.
Qed.

Lemma serve_all_shared (evs : list event) (o : observed) (f : nat -> float) :
  f (obs_tick o) = alpha (self (obs_state o)) ->
  (forall t i a, In (t, i, a) (obs_drawn o) ->
                 (t <= obs_tick o)%nat /\ a = four (f t)) ->
  exists f',
    forall t i a, In (t, i, a) (obs_drawn (serve_all evs o)) -> a = four (f' t).
Proof.
  revert o f. induction evs as [| e evs IH]; intros o f Hnow Hlog.
  - exists f. intros t i a Hin. exact (proj2 (Hlog t i a Hin)).
  - cbn [serve_all fold_left]. destruct e as [| i width height].
    + apply (IH (serve ev_timeout o)
               (fun t => if (t =? S (obs_tick o))%nat
                         then alpha (self (main_loop 1 (obs_state o)))
                         else f t)).
      * cbn. rewrite Nat.eqb_refl. reflexivity.
      * cbn. intros t i a Hin. destruct (Hlog t i a Hin) as [Ht Ha].
        split; [lia |].
        destruct (Nat.eqb_spec t (S (obs_tick o))); [lia | exact Ha].
    + apply (IH (serve (ev_draw i width height) o) f).
      * cbn. destruct (draw _ _ _ _); exact Hnow.
      * cbn. destruct (draw (obs_state o) i width height) as [cr |] eqn:Hd;
          [| exact Hlog].
        cbn. intros t j a Hin. apply in_app_or in Hin as [Hin | Hin].
        -- exact (Hlog t j a Hin).
        -- destruct Hin as [Heq | []]. injection Heq as <- <- <-.
           split; [lia |]. rewrite Hnow. exact (draw_alphas _ _ _ _ _ Hd).
Qed.

Lemma activate_windows (st : state) :
  windows (self (snd (do_activate st)))
  = windows (self st) ++ map overlay (monitors (gtk st)).
Proof.
  unfold do_activate.
  destruct (create_overlays_spec (monitors (gtk st)) st) as (Hw & _).
  destruct (PyNum.py_int _); [| exact Hw].
  destruct (timeout_add _ _ _); exact Hw.
Qed.

Lemma main_loop_windows (k : nat) (st : state) :
  windows (self (main_loop k st)) = windows (self st).
Proof.
  revert st. induction k as [| k IH]; intros st; cbn; [reflexivity |].
  destruct (quit_called (gtk st)); [reflexivity |].
  destruct (timers (gtk st)) as [| [ms cb] rest] eqn:Ht; [reflexivity |].
  rewrite IH. unfold dispatch. rewrite Ht.
  destruct cb; cbn [call].
  - reflexivity.
  - unfold _start_fade. cbn.
    destruct (fade (self st) <=? 0)%float; [reflexivity |].
    destruct (PyNum.py_int _); reflexivity.
  - unfold _fade_tick. cbn.
    destruct (alpha_step (self st)); [| reflexivity].
    destruct (_ <=? 0)%float; reflexivity.
Qed.

(** Serving one more timer firing is one more turn of the loop. *)
Lemma main_loop_one (t : nat) (st : state) :
  main_loop 1 (main_loop t st) = main_loop (S t) st.
Proof.
  revert st. induction t as [| t IH]; intros st; [reflexivity |].
  destruct (quit_called (gtk st)) eqn:Hq.
  - rewrite (main_loop_quit (S t) st Hq), (main_loop_quit (S (S t)) st Hq).
    apply main_loop_quit, Hq.
  - destruct (timers (gtk st)) as [| src rest] eqn:Ht.
    + cbn. rewrite Hq, Ht. cbn. rewrite Hq, Ht. reflexivity.
    + rewrite (main_loop_step (S t) _ _ _ Hq Ht).
      rewrite (main_loop_step t _ _ _ Hq Ht). apply IH.
Qed.

(** In a run under observation from [st0], the state is the loop's state
    after the firings so far, and every draw logged at tick [t] used the
    alpha field as it stood after [t] firings. *)
Lemma serve_all_field (evs : list event) (o : observed) (st0 : state) :
  obs_state o = main_loop (obs_tick o) st0 ->
  (forall t i a, In (t, i, a) (obs_drawn o) ->
                 a = four (alpha (self (main_loop t st0)))) ->
  obs_state (serve_all evs o) = main_loop (obs_tick (serve_all evs o)) st0
  /\ forall t i a, In (t, i, a) (obs_drawn (serve_all evs o)) ->
                   a = four (alpha (self (main_loop t st0))).
Proof.
  revert o. induction evs as [| e evs IH]; intros o Hst Hlog; [auto |].
  cbn [serve_all fold_left]. apply IH.
  - destruct e as [| i width height]; cbn.
    + rewrite Hst. apply main_loop_one.
    + destruct (draw _ _ _ _); exact Hst.
  - destruct e as [| i width height]; cbn; [exact Hlog |].
    destruct (draw (obs_state o) i width height) as [cr |] eqn:Hd;
      [| exact Hlog].
    cbn. intros t j a Hin. apply in_app_or in Hin as [Hin | Hin].
    + exact (Hlog t j a Hin).
    + destruct Hin as [Heq | []]. injection Heq as <- <- <-.
      rewrite <- Hst. exact (draw_alphas _ _ _ _ _ Hd).
Qed.

(** C9. For N detected displays activation creates exactly N overlay
    windows, one per display, in the displays' order. At every point of
    every run of timer firings and redraws, the draw callback of every
    overlay fills its four rectangles with the application's colour and the
    value the one alpha field has at that point; so every draw that falls in
    tick [t] used the alpha the field had after [t] firings, and two draws
    in the same tick used the same alpha, whichever windows they drew. *)
Theorem overlays_share_alpha (c : rgb) (bw : Z) (h f : float)
  (displays : list Monitor) (evs : list event) :
  let st := snd (do_activate (fresh_app c bw h f displays)) in
  let now := obs_state (serve_all evs (observe st)) in
  let drawn := obs_drawn (serve_all evs (observe st)) in
  length (windows (self st)) = length displays
  /\ map monitor (windows (self st)) = map Some displays
  /\ (forall i width height, (i < length displays)%nat ->
        exists cr, draw st i width height = Some cr
                   /\ Cairo.alphas cr = four (alpha (self st)))
  /\ (forall i width height, (i < length displays)%nat ->
        exists cr, draw now i width height = Some cr
                   /\ map fst (Cairo.painted cr)
                      = repeat (color (self now), alpha (self now)) 4)
  /\ (forall t i a, In (t, i, a) drawn ->
        a = four (alpha (self (main_loop t st))))
  /\ (forall t1 i1 a1 t2 i2 a2,
        In (t1, i1, a1) drawn -> In (t2, i2, a2) drawn ->
        t1 = t2 -> a1 = a2).
Proof.
  intros st now drawn.
  assert (Hw : windows (self st) = map overlay displays)
    by (subst st; rewrite activate_windows; reflexivity).
  destruct (serve_all_field evs (observe st) st) as [Hnow Hfield];
    [reflexivity | intros t i a [] |].
  fold now in Hnow. fold drawn in Hfield.
  assert (Hlook : forall s i, windows (self s) = map overlay displays ->
                    (i < length displays)%nat ->
                    exists m, windows (self s) !! i = Some (overlay m)).
  { intros s i Hs Hi. rewrite Hs, list_lookup_fmap.
    destruct (displays !! i) as [m |] eqn:Hm; [exists m; reflexivity |].
    apply lookup_ge_None in Hm. lia. }
  split; [rewrite Hw; apply length_map |].
  split; [rewrite Hw, map_map; reflexivity |].
  split; [| split; [| split]].
  - intros i width height Hi.
    destruct (Hlook st i Hw Hi) as [m Hl].
    unfold draw. rewrite Hl. cbn [child overlay draw_func].
    eexists. split; [reflexivity |].
    apply draw_border_alphas; reflexivity.
  - intros i width height Hi.
    assert (Hwn : windows (self now) = map overlay displays)
      by (rewrite Hnow, main_loop_windows; exact Hw).
    destruct (Hlook now i Hwn Hi) as [m Hl].
    unfold draw. rewrite Hl. cbn [child overlay draw_func].
    eexists. split; [reflexivity |].
    unfold _draw_border. destruct (color (self now)) as [[r g] b].
    reflexivity.
  - exact Hfield.
  - intros t1 i1 a1 t2 i2 a2 H1 H2 Ht.
    rewrite (Hfield _ _ _ H1), (Hfield _ _ _ H2), Ht. reflexivity.
Qed.

(** Two displays, defaults: both overlays are drawn between the same two
    ticks three times over, each time with one alpha. *)
Example two_displays_in_step :
  let st := snd (do_activate
                   (fresh_app (1.0, 0.6, 0.0)%float 6 0.4 0.3 [0%nat; 1%nat])) in
  obs_drawn
    (serve_all [ev_draw 0 1920 1080; ev_draw 1 2560 1440; ev_timeout;
                ev_timeout; ev_draw 1 2560 1440; ev_draw 0 1920 1080;
                ev_timeout; ev_draw 0 1920 1080; ev_draw 1 2560 1440]
       (observe st))
  = [ (0%nat, 0%nat, four 1.0); (0%nat, 1%nat, four 1.0);
      (2%nat, 1%nat, four (1.0 - 1.0 / 18.0));
      (2%nat, 0%nat, four (1.0 - 1.0 / 18.0));
      (3%nat, 0%nat, four (1.0 - 1.0 / 18.0 - 1.0 / 18.0));
      (3%nat, 1%nat, four (1.0 - 1.0 / 18.0 - 1.0 / 18.0)) ]%float.
Proof. vm_compute. reflexivity. Qed.

(** ** Start-up *)

(** With the layer shell loaded, the script creates one window per display
    and writes nothing to the error stream. *)
Lemma module_body_loaded (a : Script.args) (displays : list Monitor)
  (fuel : nat) :
  let out := Script.module_body true a displays fuel in
  Script.stderr (snd out) = []
  /\ length (Script.windows_created (snd out)) = length displays.
Proof.
  unfold Script.module_body, Script.load_layer_shell, Script.main.
  destruct (parse_color_named_or_hex (Script.arg_color a)) as [c ->].
  unfold run.
  pose proof (activate_windows
                {| self := __init__ c (Script.arg_width a) (Script.arg_hold a)
                             (Script.arg_fade a);
                   gtk := Script.fresh_toolkit displays |}) as Hw.
  destruct (do_activate _) as [[u | e] st]; cbn in *;
    (split; [reflexivity |]);
    rewrite main_loop_windows; cbn; rewrite Hw; apply length_map.
Qed.

(** C8. When the layer-shell library cannot be loaded, the script writes the
    diagnostic and the remediation hint to the error stream and exits with
    status 1; no application object and no window exists at that point,
    whatever the arguments and the displays. *)
Theorem layer_shell_missing (a : Script.args) (displays : list Monitor)
  (fuel : nat) :
  let out := Script.module_body false a displays fuel in
  fst out = Raise (SystemExit 1)
  /\ Script.exit_status out = Some 1
  /\ Script.stderr (snd out)
     = ["Error: libgtk4-layer-shell.so not found."%string;
        "Install it: pacman -S gtk4-layer-shell"%string]
  /\ Script.app (snd out) = None
  /\ Script.windows_created (snd out) = [].
Proof. repeat split. Qed.

(** * Further properties *)

(** ** Activation *)

Lemma create_overlays_providers (ms : list Monitor) (st : state) :
  providers (gtk (create_overlays ms st))
  = providers (gtk st) ++ repeat transparent_css (length ms)
  /\ monitors (gtk (create_overlays ms st)) = monitors (gtk st)
  /\ uncaught (gtk (create_overlays ms st)) = uncaught (gtk st).
Proof.
  revert st. induction ms as [| m ms IH]; intros st.
  - cbn. rewrite app_nil_r. auto.
  - cbn [create_overlays length repeat].
    destruct (_create_overlay m st) as [win st1] eqn:Hc.
    unfold _create_overlay in Hc. injection Hc as _ <-.
    destruct (IH (on_gtk (present win)
                    (on_self (append_window win)
                       (on_gtk (add_provider transparent_css) st))))
      as (Hp & Hm & Hu).
    unfold transparent_css in *. rewrite Hp, Hm, Hu. cbn.
    rewrite <- app_assoc. auto.
Qed.

(** X1. Activation appends to the window list one overlay per display, in
    the displays' order, each undecorated, on the overlay layer, named
    dingutil-flash, pinned to its display, without keyboard input, with
    exclusive zone -1, anchored to the four edges and holding an expanding
    drawing area that draws the border; it presents exactly these windows,
    and it adds the transparent style sheet once per display. This holds
    whether or not the hold timer could be scheduled. *)
Theorem activate_overlays (st : state) :
  let st' := snd (do_activate st) in
  let displays := monitors (gtk st) in
  windows (self st') = windows (self st) ++ map overlay displays
  /\ presented (gtk st') = presented (gtk st) ++ map overlay displays
  /\ providers (gtk st')
     = providers (gtk st) ++ repeat transparent_css (length displays).
Proof.
  intros st' displays. subst st' displays. unfold do_activate.
  destruct (create_overlays_spec (monitors (gtk st)) st) as (Hw & Hp & _).
  destruct (create_overlays_providers (monitors (gtk st)) st) as (Hc & _).
  destruct (PyNum.py_int _) as [ms | e]; [| cbn; auto].
  unfold timeout_add.
  destruct ((0 <=? ms) && (ms <? 2 ^ 32)); cbn; auto.
Qed.

Lemma py_int_raises (x : float) (e : exn) :
  PyNum.py_int x = Raise e -> e = ValueError \/ e = OverflowError.
Proof.
  unfold PyNum.py_int, PyNum.trunc_SF.
  destruct (Prim2SF x); intros H; try discriminate;
    injection H as <-; auto.
Qed.

Lemma main_loop_idle (fuel : nat) (st : state) :
  timers (gtk st) = [] -> main_loop fuel st = st.
Proof.
  intros H. destruct fuel; cbn; [reflexivity |].
  rewrite H. destruct (quit_called (gtk st)); reflexivity.
Qed.

(** X2. When the hold time gives no valid interval (int(hold * 1000) raises,
    as on a NaN or an infinity, or is negative or 2^32 or more), activation
    still creates the overlays and then raises [e]; no timeout source is
    scheduled, so however long the loop runs no callback fires, [quit] is
    never called and the overlays stay at alpha 1.0. *)
Theorem activate_bad_hold (c : rgb) (bw : Z) (h f : float)
  (displays : list Monitor) (e : exn) (fuel : nat) :
  (PyNum.py_int (PyNum.mul_int h 1000) = Raise e
   \/ exists ms, PyNum.py_int (PyNum.mul_int h 1000) = Ok ms
                 /\ (ms < 0 \/ 2 ^ 32 <= ms) /\ e = OverflowError) ->
  let st := run fuel (fresh_app c bw h f displays) in
  fst (do_activate (fresh_app c bw h f displays)) = Raise e
  /\ quit_called (gtk st) = false
  /\ timers (gtk st) = []
  /\ uncaught (gtk st) = [e]
  /\ windows (self st) = map overlay displays
  /\ alpha (self st) = 1.0%float.
Proof.
  intros Hbad st. subst st. unfold run, do_activate.
  change (monitors (gtk (fresh_app c bw h f displays))) with displays.
  destruct (create_overlays_spec displays (fresh_app c bw h f displays))
    as (Hw & _ & Ht & Hq & _ & Ha & _ & _ & Hh & _).
  destruct (create_overlays_providers displays (fresh_app c bw h f displays))
    as (_ & _ & Hu).
  rewrite Hh. change (hold (self (fresh_app c bw h f displays))) with h.
  destruct Hbad as [Hr | (ms & Hms & Hrange & ->)].
  - rewrite Hr. cbn [fst]. rewrite main_loop_idle by (cbn; exact Ht).
    cbn. rewrite Hq, Ht, Hu, Hw, Ha. repeat split.
  - rewrite Hms. unfold timeout_add.
    replace ((0 <=? ms) && (ms <? 2 ^ 32)) with false
      by (symmetry; apply andb_false_iff;
          rewrite Z.leb_gt, Z.ltb_ge; lia).
    cbn [fst]. rewrite main_loop_idle by (cbn; exact Ht).
    cbn. rewrite Hq, Ht, Hu, Hw, Ha. repeat split.
Qed.

(** The theorem for --hold nan on two displays. *)
Lemma activate_bad_hold_witness :
  let st := run 7 (fresh_app (1.0, 0.6, 0.0)%float 6 nan 0.3 [0%nat; 1%nat]) in
  fst (do_activate (fresh_app (1.0, 0.6, 0.0)%float 6 nan 0.3 [0%nat; 1%nat]))
  = Raise ValueError
  /\ quit_called (gtk st) = false
  /\ timers (gtk st) = []
  /\ uncaught (gtk st) = [ValueError]
  /\ windows (self st) = map overlay [0%nat; 1%nat]
  /\ alpha (self st) = 1.0%float.
Proof.
  apply (activate_bad_hold (1.0, 0.6, 0.0)%float 6 nan 0.3 [0%nat; 1%nat]
           ValueError 7).
  left. vm_compute. reflexivity.
Defined.

(** ** The hold timer's callback on bad fade durations *)

(** X3. When the fade duration is not <= 0 and int(fade * 1000 / 16) raises
    (a NaN: ValueError; an infinity, or a fade so large that fade * 1000
    overflows: OverflowError), [_start_fade] raises out of the timer
    callback: its source is removed, no fade tick is scheduled, [quit] is
    never called, and alpha and the redraw requests stay as they were,
    however long the loop runs. *)
Theorem start_fade_raises (st : state) (ms : Z) (e : exn) (fuel : nat) :
  hold_pending st ms ->
  (fade (self st) <=? 0)%float = false ->
  PyNum.py_int (fade_quotient (fade (self st))) = Raise e ->
  let st' := main_loop (S fuel) st in
  quit_called (gtk st') = false
  /\ timers (gtk st') = []
  /\ uncaught (gtk st') = uncaught (gtk st) ++ [e]
  /\ redraws (gtk st') = redraws (gtk st)
  /\ self st' = self st.
Proof.
  intros [Ht Hq] Hf He st'. subst st'.
  rewrite (main_loop_step _ _ _ _ Hq Ht).
  assert (Hd : dispatch st = on_gtk (report e) (on_gtk (set_timers []) st)).
  { unfold dispatch. rewrite Ht. cbn [call]. unfold _start_fade.
    cbn [on_gtk self gtk]. rewrite Hf.
    fold (fade_quotient (fade (self st))). rewrite He. reflexivity. }
  rewrite Hd, main_loop_idle by reflexivity.
  cbn. rewrite Hq. repeat split.
Qed.

(** The theorem for --fade inf. *)
Lemma start_fade_raises_witness :
  let st := snd (do_activate
                   (fresh_app (1.0, 0.6, 0.0)%float 6 0.4 infinity [0%nat])) in
  let st' := main_loop 9 st in
  quit_called (gtk st') = false
  /\ timers (gtk st') = []
  /\ uncaught (gtk st') = uncaught (gtk st) ++ [OverflowError]
  /\ redraws (gtk st') = redraws (gtk st)
  /\ self st' = self st.
Proof.
  intros st.
  apply (start_fade_raises st 400 OverflowError 8);
    [split; reflexivity | reflexivity | vm_compute; reflexivity].
Defined.

(** ** One tick *)

Lemma queue_draws_overlays (displays : list Monitor) (i : nat) (t : toolkit) :
  redraws (queue_draws i (map overlay displays) t)
  = redraws t ++ seq i (length displays)
  /\ timers (queue_draws i (map overlay displays) t) = timers t
  /\ quit_called (queue_draws i (map overlay displays) t) = quit_called t
  /\ uncaught (queue_draws i (map overlay displays) t) = uncaught t.
Proof.
  revert i t. induction displays as [| m ms IH]; intros i t; cbn.
  - rewrite app_nil_r. auto.
  - destruct (IH (S i) (queue_draw i t)) as (-> & -> & -> & ->).
    cbn. rewrite <- app_assoc. auto.
Qed.

(** X4. One firing of the fade tick, with the overlays activation made:
    alpha drops by the decrement; if the new alpha is <= 0 the tick calls
    [quit], requests no redraw and its source goes; otherwise it requests
    one redraw of every overlay, in order, and stays the only source. The
    other attributes do not change. *)
Theorem fade_tick_step (st : state) (d : float) (displays : list Monitor) :
  fading st d ->
  windows (self st) = map overlay displays ->
  let a' := (alpha (self st) - d)%float in
  let st' := dispatch st in
  self st' = set_alpha a' (self st)
  /\ uncaught (gtk st') = uncaught (gtk st)
  /\ if (a' <=? 0)%float
     then quit_called (gtk st') = true
          /\ timers (gtk st') = []
          /\ redraws (gtk st') = redraws (gtk st)
     else quit_called (gtk st') = false
          /\ timers (gtk st') = [(16, cb_fade_tick)]
          /\ redraws (gtk st')
             = redraws (gtk st) ++ seq 0 (length displays).
Proof.
  intros (Ht & Hq & Hd) Hw a' st'. subst st'. unfold dispatch. rewrite Ht.
  cbn [call]. unfold _fade_tick. cbn [on_gtk on_self self gtk alpha_step].
  rewrite Hd. cbn [set_alpha alpha]. fold a'.
  destruct (a' <=? 0)%float.
  - cbn. repeat split.
  - cbn. rewrite Hw.
    destruct (queue_draws_overlays displays 0 (set_timers [] (gtk st)))
      as (Hr & Htm & Hqc & Hu).
    rewrite Hr, Htm, Hqc, Hu. cbn. rewrite Hq. repeat split.
Qed.

(** The theorem on the first tick of the default fade on two displays. *)
Lemma fade_tick_step_witness :
  let st := main_loop 1
              (snd (do_activate
                      (fresh_app (1.0, 0.6, 0.0)%float 6 0.4 0.3
                         [0%nat; 1%nat]))) in
  let a' := (1.0 - PyNum.div_int 1.0 18)%float in
  let st' := dispatch st in
  self st' = set_alpha a' (self st)
  /\ uncaught (gtk st') = uncaught (gtk st)
  /\ (quit_called (gtk st') = false
      /\ timers (gtk st') = [(16, cb_fade_tick)]
      /\ redraws (gtk st') = redraws (gtk st) ++ seq 0 2).
Proof.
  intros st.
  apply (fade_tick_step st (PyNum.div_int 1.0 18) [0%nat; 1%nat]);
    [repeat split | reflexivity].
Defined.

(** X12. A positive fade shorter than two ticks (the quotient truncates to
    0 or 1, so the step count is 1) is a single tick: alpha goes from 1.0
    straight to 0.0, [quit] is called, and no redraw is ever requested. *)
Theorem short_fade_single_tick (st : state) (ms n : Z) (fuel : nat) :
  hold_pending st ms ->
  alpha (self st) = 1.0%float ->
  (0 <? fade (self st))%float = true ->
  PyNum.py_int (fade_quotient (fade (self st))) = Ok n ->
  n <= 1 ->
  let st' := main_loop (S (S fuel)) st in
  quit_called (gtk st') = true
  /\ alpha (self st') = 0.0%float
  /\ timers (gtk st') = []
  /\ redraws (gtk st') = redraws (gtk st).
Proof.
  intros Hhold Ha Hpos Hn Hle st'. subst st'.
  destruct (start_fade_dispatch st ms n Hhold Hpos Hn) as (Hfad & Ha1 & Hr1).
  cbv zeta in Hfad. replace (Z.max 1 n) with 1 in Hfad by lia.
  rewrite Ha in Hfad, Ha1.
  destruct Hhold as [Ht Hq].
  rewrite (main_loop_step _ _ _ _ Hq Ht).
  pose proof Hfad as (Ht1 & Hq1 & Hd1).
  rewrite (main_loop_step _ _ _ _ Hq1 Ht1).
  assert (Hdd : dispatch (dispatch st)
                = on_gtk quit
                    (on_self (set_alpha 0.0%float)
                       (on_gtk (set_timers []) (dispatch st)))).
  { unfold dispatch at 1. rewrite Ht1. cbn [call]. unfold _fade_tick.
    cbn [on_gtk on_self self gtk alpha_step]. rewrite Hd1, Ha1.
    reflexivity. }
  rewrite Hdd, main_loop_quit by reflexivity.
  cbn. rewrite Hr1. repeat split.
Qed.

(** The theorem for --fade 0.01. *)
Lemma short_fade_single_tick_witness :
  let st := snd (do_activate
                   (fresh_app (1.0, 0.6, 0.0)%float 6 0.4 0.01 [0%nat])) in
  let st' := main_loop 6 st in
  quit_called (gtk st') = true
  /\ alpha (self st') = 0.0%float
  /\ timers (gtk st') = []
  /\ redraws (gtk st') = redraws (gtk st).
Proof.
  intros st.
  apply (short_fade_single_tick st 400 0 4);
    [split; reflexivity | reflexivity | reflexivity
    | vm_compute; reflexivity | lia].
Defined.

(** ** Invariants of the loop *)

Lemma dispatch_inv (st : state) : loop_inv st -> loop_inv (dispatch st).
Proof.
  intros [Hs Hu]. unfold dispatch.
  destruct Hs as [Ht | [[ms Ht] | [Ht Hd]]]; rewrite Ht.
  - split; [left; exact Ht | exact Hu].
  - cbn [call]. unfold _start_fade. cbn [on_gtk self gtk].
    destruct (fade (self st) <=? 0)%float.
    + split; [left; reflexivity | exact Hu].
    + destruct (PyNum.py_int _) as [n | e] eqn:Hn.
      * cbn. split; [| exact Hu].
        right. right. cbn. split; [reflexivity | discriminate].
      * split; [left; reflexivity |]. cbn. intros Hin.
        apply in_app_or in Hin as [Hin | [Heq | []]]; [exact (Hu Hin) |].
        apply py_int_raises in Hn. destruct Hn; congruence.
  - cbn [call]. unfold _fade_tick. cbn [on_gtk on_self self gtk alpha_step].
    destruct (alpha_step (self st)) as [d |] eqn:Hstep; [| contradiction].
    cbn [set_alpha alpha].
    destruct (_ <=? 0)%float.
    + split; [left; reflexivity | exact Hu].
    + assert (Hqd : forall ws i t,
                 timers (queue_draws i ws t) = timers t
                 /\ uncaught (queue_draws i ws t) = uncaught t).
      { induction ws as [| w ws IH]; intros i t; cbn; [auto |].
        destruct (IH (S i) (match child w with
                            | Some _ => queue_draw i t
                            | None => t
                            end)) as [-> ->].
        destruct (child w); auto. }
      destruct (Hqd (windows (self st)) 0%nat (set_timers [] (gtk st)))
        as [Htm Hun].
      split.
      * right. right. cbn. rewrite Htm. cbn. rewrite Hstep.
        split; [reflexivity | discriminate].
      * cbn. rewrite Hun. exact Hu.
Qed.

Lemma main_loop_inv (fuel : nat) (st : state) :
  loop_inv st -> loop_inv (main_loop fuel st).
Proof.
  revert st. induction fuel as [| fuel IH]; intros st Hinv; cbn;
    [exact Hinv |].
  destruct (quit_called (gtk st)); [exact Hinv |].
  destruct (timers (gtk st)); [exact Hinv |].
  apply IH, dispatch_inv, Hinv.
Qed.

Lemma activate_inv (c : rgb) (bw : Z) (h f : float)
  (displays : list Monitor) :
  match do_activate (fresh_app c bw h f displays) with
  | (Ok _, st) => loop_inv st
  | (Raise e, st) => loop_inv (on_gtk (report e) st)
  end.
Proof.
  unfold do_activate.
  change (monitors (gtk (fresh_app c bw h f displays))) with displays.
  destruct (create_overlays_spec displays (fresh_app c bw h f displays))
    as (_ & _ & Ht & _).
  destruct (create_overlays_providers displays (fresh_app c bw h f displays))
    as (_ & _ & Hu).
  destruct (PyNum.py_int _) as [ms | e] eqn:Hms.
  - unfold timeout_add. destruct ((0 <=? ms) && (ms <? 2 ^ 32)).
    + split; cbn; [| rewrite Hu; intros []].
      right. left. exists ms. cbn. rewrite Ht. reflexivity.
    + split; cbn; [left; exact Ht |].
      rewrite Hu. cbn. intros [Heq | []]. discriminate.
  - split; cbn; [left; exact Ht |].
    rewrite Hu. cbn. intros [Heq | []].
    apply py_int_raises in Hms. destruct Hms; congruence.
Qed.

(** X5. At every point of every run, from any arguments and displays, the
    program has at most one timeout source, and the fade tick is a source
    only once [_start_fade] has set the decrement: [_fade_tick] never reads
    a missing [alpha_step] (no AttributeError is ever raised). *)
Theorem run_sources (c : rgb) (bw : Z) (h f : float)
  (displays : list Monitor) (fuel : nat) :
  let st := run fuel (fresh_app c bw h f displays) in
  (length (timers (gtk st)) <= 1)%nat
  /\ ~ In AttributeError (uncaught (gtk st))
  /\ (forall ms, In (ms, cb_fade_tick) (timers (gtk st)) ->
        ms = 16 /\ alpha_step (self st) <> None).
Proof.
  intros st.
  assert (Hinv : loop_inv st).
  { subst st. unfold run.
    pose proof (activate_inv c bw h f displays) as Ha.
    destruct (do_activate _) as [[u | e] st0]; apply main_loop_inv, Ha. }
  destruct Hinv as [Hs Hu].
  destruct Hs as [Ht | [[ms0 Ht] | [Ht Hd]]]; rewrite Ht; cbn;
    (split; [lia |]); (split; [exact Hu |]); intros ms' Hin.
  - destruct Hin.
  - destruct Hin as [Heq | []]. discriminate.
  - destruct Hin as [Heq | []]. injection Heq as <-. split; [reflexivity |].
    exact Hd.
Qed.

Lemma main_loop_configuration (fuel : nat) (st : state) :
  let st' := main_loop fuel st in
  color (self st') = color (self st)
  /\ border_width (self st') = border_width (self st)
  /\ hold (self st') = hold (self st)
  /\ fade (self st') = fade (self st)
  /\ windows (self st') = windows (self st)
  /\ presented (gtk st') = presented (gtk st)
  /\ monitors (gtk st') = monitors (gtk st).
Proof.
  revert st. induction fuel as [| fuel IH]; intros st; cbn;
    [repeat split |].
  destruct (quit_called (gtk st)); [repeat split |].
  destruct (timers (gtk st)) as [| [ms cb] rest] eqn:Ht; [repeat split |].
  destruct (IH (dispatch st)) as (-> & -> & -> & -> & -> & -> & ->).
  unfold dispatch. rewrite Ht.
  assert (Hqd : forall ws i t,
             presented (queue_draws i ws t) = presented t
             /\ monitors (queue_draws i ws t) = monitors t).
  { induction ws as [| w ws IHw]; intros i t; cbn; [auto |].
    destruct (IHw (S i) (match child w with
                         | Some _ => queue_draw i t
                         | None => t
                         end)) as [-> ->].
    destruct (child w); auto. }
  destruct cb; cbn [call].
  - repeat split.
  - unfold _start_fade. cbn.
    destruct (fade (self st) <=? 0)%float; [repeat split |].
    destruct (PyNum.py_int _); repeat split.
  - unfold _fade_tick. cbn.
    destruct (alpha_step (self st)); [| repeat split].
    destruct (_ <=? 0)%float; [repeat split |].
    cbn.
    destruct (Hqd (windows (self st)) 0%nat (set_timers rest (gtk st)))
      as [-> ->].
    repeat split.
Qed.

(** X13. No timer callback touches the configuration or the windows:
    however long the loop runs, the colour, the border width, the hold and
    fade durations, the window list, the windows presented and the displays
    are those the loop started with. Only alpha, the decrement, the sources,
    the quit flag and the redraw requests move. *)
Theorem callbacks_keep_configuration (fuel : nat) (st : state) :
  let st' := main_loop fuel st in
  (color (self st'), border_width (self st'), hold (self st'), fade (self st'))
  = (color (self st), border_width (self st), hold (self st), fade (self st))
  /\ windows (self st') = windows (self st)
  /\ presented (gtk st') = presented (gtk st)
  /\ monitors (gtk st') = monitors (gtk st).
Proof.
  intros st'. subst st'.
  destruct (main_loop_configuration fuel st)
    as (Hc & Hb & Hh & Hf & Hw & Hp & Hm).
  cbv zeta in *. rewrite Hc, Hb, Hh, Hf, Hw, Hp, Hm. repeat split.
Qed.

(** ** More of the colour resolver *)

Lemma lower_hashes (k : nat) (s : string) :
  PyStr.lower (hashes k s) = hashes k (PyStr.lower s).
Proof.
  induction k as [| k IH]; [reflexivity |].
  cbn [hashes PyStr.lower]. rewrite IH. reflexivity.
Qed.

Lemma lstrip_hashes (k : nat) (s : string) :
  PyStr.lstrip "#" (hashes k s) = PyStr.lstrip "#" s.
Proof.
  induction k as [| k IH]; [reflexivity |].
  cbn [hashes PyStr.lstrip].
  change (Ascii.eqb "#" "#") with true. exact IH.
Qed.

Lemma hash_not_named (s : string) : NAMED_COLORS !! String "#" s = None.
Proof.
  apply not_elem_of_list_to_map_1. cbn. intros H.
  repeat (apply elem_of_cons in H as [H | H]; [discriminate |]).
  apply elem_of_nil in H. contradiction.
Qed.

(** The hex branch of [parse_color] on a name that is no key and strips to
    six hex digits. *)
Lemma parse_color_hex_branch (name : string)
  (c1 c2 c3 c4 c5 c6 : ascii) (d1 d2 d3 d4 d5 d6 : Z) :
  NAMED_COLORS !! PyStr.lower name = None ->
  PyStr.lstrip "#" name = hex6 c1 c2 c3 c4 c5 c6 ->
  PyStr.digit_value c1 = Some d1 -> PyStr.digit_value c2 = Some d2 ->
  PyStr.digit_value c3 = Some d3 -> PyStr.digit_value c4 = Some d4 ->
  PyStr.digit_value c5 = Some d5 -> PyStr.digit_value c6 = Some d6 ->
  parse_color name = Ok (byte_of d1 d2, byte_of d3 d4, byte_of d5 d6).
Proof.
  intros Hn Hs H1 H2 H3 H4 H5 H6.
  unfold parse_color. rewrite Hn, Hs.
  change (PyStr.len (hex6 c1 c2 c3 c4 c5 c6) =? 6) with true. cbv iota.
  rewrite (int16_hex6 _ _ _ _ _ _ _ _ _ _ _ _ H1 H2 H3 H4 H5 H6).
  destruct (hex_channels d1 d2 d3 d4 d5 d6) as (Hr & Hg & Hb);
    try (eapply hex_char_facts; eassumption).
  unfold channel, byte_of. rewrite Hr, Hg, Hb. reflexivity.
Qed.

(** X6. A hex colour may carry any number of leading [#]: for six hex
    digits in any mix of cases, every count of [#] before them gives the
    same three channels, each from its two digits over 255. *)
Theorem parse_color_hashes (k : nat) (c1 c2 c3 c4 c5 c6 : ascii)
  (d1 d2 d3 d4 d5 d6 : Z) :
  hex_value c1 = Some d1 -> hex_value c2 = Some d2 ->
  hex_value c3 = Some d3 -> hex_value c4 = Some d4 ->
  hex_value c5 = Some d5 -> hex_value c6 = Some d6 ->
  parse_color (hashes k (hex6 c1 c2 c3 c4 c5 c6))
  = Ok (byte_of d1 d2, byte_of d3 d4, byte_of d5 d6).
Proof.
  rewrite !hex_value_digit. intros H1 H2 H3 H4 H5 H6.
  apply (parse_color_hex_branch _ c1 c2 c3 c4 c5 c6); try assumption.
  - destruct k as [| k].
    + exact (proj1 (hex6_not_named c1 c2 c3 c4 c5 c6 d1 H1)).
    + rewrite lower_hashes. cbn [hashes]. apply hash_not_named.
  - rewrite lstrip_hashes.
    destruct (hex_char_facts _ _ H1) as (_ & _ & _ & _ & _ & _ & _ & Hh & _).
    unfold hex6. cbn [PyStr.lstrip]. rewrite Hh. reflexivity.
Qed.

(** The theorem at three leading [#]. *)
Lemma parse_color_hashes_witness :
  parse_color "###Ff9900" = Ok (1.0, 0.6, 0.0)%float.
Proof.
  exact (parse_color_hashes 3 "F" "f" "9" "9" "0" "0" 15 15 9 9 0 0
           eq_refl eq_refl eq_refl eq_refl eq_refl eq_refl).
Defined.

Lemma case_variant_char_lower (k c : ascii) :
  97 <= PyStr.code k <= 122 ->
  case_variant_char k c -> PyStr.lower_char c = k.
Proof.
  intros Hk [-> | [_ Hc]].
  - assert (H : (if (97 <=? PyStr.code k) && (PyStr.code k <=? 122)
                 then Ascii.eqb (PyStr.lower_char k) k else true) = true).
    { revert k Hk. intros k _. revert k. apply forall_chars.
      vm_compute. reflexivity. }
    replace ((97 <=? PyStr.code k) && (PyStr.code k <=? 122)) with true in H
      by (symmetry; apply andb_true_iff; rewrite !Z.leb_le; lia).
    apply Ascii.eqb_eq, H.
  - assert (Heq : c = ascii_of_N (Z.to_N (PyStr.code k - 32))).
    { rewrite <- Hc. unfold PyStr.code. rewrite N2Z.id.
      symmetry. apply ascii_N_embedding. }
    clear Hc. subst c.
    assert (H : (if (97 <=? PyStr.code k) && (PyStr.code k <=? 122)
                 then Ascii.eqb
                        (PyStr.lower_char
                           (ascii_of_N (Z.to_N (PyStr.code k - 32)))) k
                 else true) = true).
    { revert k Hk. intros k _. revert k. apply forall_chars.
      vm_compute. reflexivity. }
    replace ((97 <=? PyStr.code k) && (PyStr.code k <=? 122)) with true in H
      by (symmetry; apply andb_true_iff; rewrite !Z.leb_le; lia).
    apply Ascii.eqb_eq, H.
Qed.

Lemma case_variant_lower (key s : string) :
  lowercase_letters key = true ->
  case_variant key s -> PyStr.lower s = key.
Proof.
  revert s. induction key as [| k key IH]; intros [| c s] Hl Hv;
    try contradiction; [reflexivity |].
  unfold lowercase_letters in Hl. cbn in Hl.
  apply andb_true_iff in Hl as [Hk Hl].
  apply andb_true_iff in Hk as [Hk1 Hk2].
  apply Z.leb_le in Hk1, Hk2.
  destruct Hv as [Hc Hv]. cbn [PyStr.lower].
  rewrite (case_variant_char_lower k c) by (try lia; exact Hc).
  rewrite (IH s Hl Hv). reflexivity.
Qed.

Lemma keys_lowercase (key : string) (v : rgb) :
  NAMED_COLORS !! key = Some v -> lowercase_letters key = true.
Proof.
  intros H. apply elem_of_list_to_map_2 in H.
  unfold NAMED_COLORS_items in H.
  repeat (apply elem_of_cons in H as [H | H];
          [ injection H as -> _; reflexivity | ]).
  apply elem_of_nil in H. contradiction.
Qed.

(** X8. Named colours are found whatever the case: for every key of the
    table, every spelling of the key with any of its letters capitalised
    resolves to the key's table value. *)
Theorem parse_color_case_variant (key s : string) (v : rgb) :
  NAMED_COLORS !! key = Some v ->
  case_variant key s ->
  parse_color s = Ok v.
Proof.
  intros Hv Hs.
  apply (parse_color_named s key v Hv).
  apply case_variant_lower; [exact (keys_lowercase key v Hv) | exact Hs].
Qed.

(** The theorem at a mixed spelling of purple. *)
Lemma parse_color_case_variant_witness :
  parse_color "PuRpLe" = Ok (0.6, 0.2, 0.8)%float.
Proof.
  apply (parse_color_case_variant "purple" "PuRpLe"); [reflexivity |].
  cbn. unfold case_variant_char.
  repeat split; try (left; reflexivity);
    right; vm_compute; repeat split; discriminate.
Defined.

Lemma prefixed_not_named (c0 : ascii) (s : string) :
  c0 = "0"%char \/ c0 = "+"%char ->
  NAMED_COLORS !! PyStr.lower (String c0 s) = None.
Proof.
  intros Hc. apply not_elem_of_list_to_map_1.
  cbn [PyStr.lower].
  assert (Hl : PyStr.lower_char c0 = c0)
    by (destruct Hc as [-> | ->]; reflexivity).
  rewrite Hl. cbn. intros H.
  repeat (apply elem_of_cons in H as [H | H];
          [destruct Hc as [-> | ->]; discriminate |]).
  apply elem_of_nil in H. contradiction.
Qed.

Lemma int16_0x_hex4 (x c1 c2 c3 c4 : ascii) (d1 d2 d3 d4 : Z) :
  x = "x"%char \/ x = "X"%char ->
  PyStr.digit_value c1 = Some d1 -> PyStr.digit_value c2 = Some d2 ->
  PyStr.digit_value c3 = Some d3 -> PyStr.digit_value c4 = Some d4 ->
  PyStr.int16 (String "0" (String x (hex4 c1 c2 c3 c4)))
  = Ok (16 * (16 * (16 * (16 * 0 + d1) + d2) + d3) + d4).
Proof.
  intros Hx H1 H2 H3 H4.
  destruct (hex_char_facts _ _ H1) as (_ & _ & Hu & _).
  unfold PyStr.int16, hex4.
  cbn [list_ascii_of_string PyStr.skip_spaces].
  change (PyStr.is_space "0") with false. cbv iota.
  unfold PyStr.read_sign.
  change (PyStr.code "0" =? 43) with false.
  change (PyStr.code "0" =? 45) with false. cbv iota.
  unfold PyStr.read_prefix.
  change (PyStr.code "0" =? 48) with true.
  replace ((PyStr.code x =? 120) || (PyStr.code x =? 88)) with true
    by (destruct Hx as [-> | ->]; reflexivity).
  cbn [andb]. rewrite Hu. cbv iota. rewrite Hu.
  cbn [PyStr.read_digits]. rewrite H1, H2, H3, H4. reflexivity.
Qed.

Lemma int16_plus_hex5 (c1 c2 c3 c4 c5 : ascii) (d1 d2 d3 d4 d5 : Z) :
  PyStr.digit_value c1 = Some d1 -> PyStr.digit_value c2 = Some d2 ->
  PyStr.digit_value c3 = Some d3 -> PyStr.digit_value c4 = Some d4 ->
  PyStr.digit_value c5 = Some d5 ->
  PyStr.int16 (String "+" (hex5 c1 c2 c3 c4 c5))
  = Ok (16 * (16 * (16 * (16 * (16 * 0 + d1) + d2) + d3) + d4) + d5).
Proof.
  intros H1 H2 H3 H4 H5.
  destruct (hex_char_facts _ _ H1) as (_ & _ & Hu & _).
  destruct (hex_char_facts _ _ H2) as (_ & _ & _ & _ & _ & Hx & HX & _).
  unfold PyStr.int16, hex5, hex4.
  cbn [list_ascii_of_string PyStr.skip_spaces].
  change (PyStr.is_space "+") with false. cbv iota.
  unfold PyStr.read_sign.
  change (PyStr.code "+" =? 43) with true. cbv iota.
  unfold PyStr.read_prefix. rewrite Hx, HX, andb_false_r. rewrite Hu.
  cbn [PyStr.read_digits]. rewrite H1, H2, H3, H4, H5. reflexivity.
Qed.

(** X7. The hex branch takes what [int(s, 16)] takes, not only six digits.
    A [0x] or [0X] before four hex digits is read as a prefix: the red
    channel is 0 and the digits give green and blue. A [+] before five hex
    digits is read as a sign: the first digit alone is the red channel.
    Neither falls back to red. *)
Theorem parse_color_prefixed (x c1 c2 c3 c4 c5 : ascii) (d1 d2 d3 d4 d5 : Z) :
  x = "x"%char \/ x = "X"%char ->
  hex_value c1 = Some d1 -> hex_value c2 = Some d2 ->
  hex_value c3 = Some d3 -> hex_value c4 = Some d4 ->
  hex_value c5 = Some d5 ->
  parse_color (String "0" (String x (hex4 c1 c2 c3 c4)))
  = Ok (byte_of 0 0, byte_of d1 d2, byte_of d3 d4)
  /\ parse_color (String "+" (hex5 c1 c2 c3 c4 c5))
     = Ok (byte_of 0 d1, byte_of d2 d3, byte_of d4 d5).
Proof.
  rewrite !hex_value_digit. intros Hx H1 H2 H3 H4 H5.
  pose proof (hex_char_facts _ _ H1) as (R1 & _).
  pose proof (hex_char_facts _ _ H2) as (R2 & _).
  pose proof (hex_char_facts _ _ H3) as (R3 & _).
  pose proof (hex_char_facts _ _ H4) as (R4 & _).
  pose proof (hex_char_facts _ _ H5) as (R5 & _).
  split.
  - unfold parse_color.
    rewrite (prefixed_not_named "0" _ (or_introl eq_refl)).
    cbn [PyStr.lstrip]. change (Ascii.eqb "0" "#") with false. cbv iota.
    change (PyStr.len (String "0" (String x (hex4 c1 c2 c3 c4))) =? 6)
      with true. cbv iota.
    rewrite (int16_0x_hex4 _ _ _ _ _ _ _ _ _ Hx H1 H2 H3 H4).
    destruct (hex_channels 0 0 d1 d2 d3 d4) as (Hr & Hg & Hb); try lia.
    cbv zeta in Hr, Hg, Hb.
    replace (16 * (16 * (16 * (16 * 0 + d1) + d2) + d3) + d4)
      with (16 * (16 * (16 * (16 * (16 * (16 * 0 + 0) + 0) + d1) + d2) + d3)
            + d4) by lia.
    unfold channel, byte_of. rewrite Hr, Hg, Hb. reflexivity.
  - unfold parse_color.
    rewrite (prefixed_not_named "+" _ (or_intror eq_refl)).
    cbn [PyStr.lstrip]. change (Ascii.eqb "+" "#") with false. cbv iota.
    change (PyStr.len (String "+" (hex5 c1 c2 c3 c4 c5)) =? 6) with true.
    cbv iota.
    rewrite (int16_plus_hex5 _ _ _ _ _ _ _ _ _ _ H1 H2 H3 H4 H5).
    destruct (hex_channels 0 d1 d2 d3 d4 d5) as (Hr & Hg & Hb); try lia.
    cbv zeta in Hr, Hg, Hb.
    replace (16 * (16 * (16 * (16 * (16 * 0 + d1) + d2) + d3) + d4) + d5)
      with (16 * (16 * (16 * (16 * (16 * (16 * 0 + 0) + d1) + d2) + d3) + d4)
            + d5) by lia.
    unfold channel, byte_of. rewrite Hr, Hg, Hb. reflexivity.
Qed.

(** The theorem at 0xffff and +fffff: cyan and a near-white blue, not the
    fallback. *)
Lemma parse_color_prefixed_witness :
  parse_color "0xffff" = Ok (0.0, 1.0, 1.0)%float
  /\ parse_color "+fffff" = Ok (byte_of 0 15, 1.0, 1.0)%float.
Proof.
  exact (parse_color_prefixed "x" "f" "f" "f" "f" "f" 15 15 15 15 15
           (or_introl eq_refl) eq_refl eq_refl eq_refl eq_refl eq_refl).
Defined.

(** ** More of the border *)

(** X10. On a window with non-negative sides and 2B < min(W, H), the four
    rectangles of the border do not overlap: no pixel is covered by more
    than one of them, so the translucent fills of a fading border are never
    laid over one another; and all four fills use the configured colour with
    the current alpha. *)
Theorem draw_border_no_overlap (s : self_t) (area : DrawingArea)
  (W H px py : Z) :
  let B := border_width s in
  let cr := _draw_border s area (Cairo.create W H) W H in
  0 <= W -> 0 <= H -> 2 * B < Z.min W H ->
  (cover_count cr px py <= 1)%nat
  /\ map fst (Cairo.painted cr)
     = repeat (color s, alpha s) 4.
Proof.
  intros B cr HW HH HB. split.
  - subst cr. unfold cover_count. rewrite draw_border_painted. fold B.
    cbn [List.filter].
    repeat match goal with
           | |- context [if Cairo.covers ?r px py then _ else _] =>
               destruct (Cairo.covers r px py) eqn:?
           end;
      cbn [length]; try lia;
      exfalso;
      repeat match goal with
             | E : Cairo.covers _ _ _ = true |- _ => apply covers_iff in E
             end;
      lia.
  - subst cr. unfold _draw_border.
    destruct (color s) as [[r g] b]. reflexivity.
Qed.

(** The theorem at a corner pixel of a 100 by 50 window, width 6. *)
Lemma draw_border_no_overlap_witness :
  let s := __init__ (1.0, 0.6, 0.0)%float 6 0.4 0.3 in
  let area := {| draw_func := Some cb_draw_border;
                 hexpand := true; vexpand := true |} in
  let cr := _draw_border s area (Cairo.create 100 50) 100 50 in
  (cover_count cr 3 3 <= 1)%nat
  /\ map fst (Cairo.painted cr) = repeat (color s, alpha s) 4.
Proof.
  intros s area cr.
  apply (draw_border_no_overlap s area 100 50 3 3); cbn; lia.
Defined.

(** X11. A border at least half as thick as the window's smaller side
    leaves no interior: with B >= 0 and 2B >= min(W, H), every pixel of the
    window is filled. *)
Theorem draw_border_thick_fills (s : self_t) (area : DrawingArea)
  (W H px py : Z) :
  let B := border_width s in
  let cr := _draw_border s area (Cairo.create W H) W H in
  0 <= B -> Z.min W H <= 2 * B ->
  0 <= px < W -> 0 <= py < H ->
  Cairo.filled cr px py = true.
Proof.
  intros B cr HB Hthick Hx Hy. subst cr.
  apply filled_iff. rewrite draw_border_painted. fold B.
  replace (Cairo.cr_width _) with W
    by (unfold _draw_border; destruct (color s) as [[? ?] ?]; reflexivity).
  replace (Cairo.cr_height _) with H
    by (unfold _draw_border; destruct (color s) as [[? ?] ?]; reflexivity).
  split; [lia |].
  destruct (Z_lt_le_dec py B) as [Htop | Hnt].
  { eexists. split; [left; reflexivity |]. apply covers_iff. lia. }
  destruct (Z_lt_le_dec py (H - B)) as [Hmid | Hbot].
  2: { eexists. split; [right; left; reflexivity |]. apply covers_iff. lia. }
  destruct (Z_lt_le_dec px B) as [Hleft | Hright].
  - eexists. split; [right; right; left; reflexivity |].
    apply covers_iff. lia.
  - eexists. split; [right; right; right; left; reflexivity |].
    apply covers_iff. lia.
Qed.

(** The theorem at the centre of a 100 by 10 window with width 6. *)
Lemma draw_border_thick_fills_witness :
  let s := __init__ (1.0, 0.6, 0.0)%float 6 0.4 0.3 in
  let area := {| draw_func := Some cb_draw_border;
                 hexpand := true; vexpand := true |} in
  Cairo.filled (_draw_border s area (Cairo.create 100 10) 100 10) 50 5 = true.
Proof.
  intros s area.
  apply (draw_border_thick_fills s area 100 10 50 5); cbn; lia.
Defined.

(** ** The whole script *)





Lemma activate_uncaught (st0 st : state) (u : unit) :
  do_activate st0 = (Ok u, st) -> uncaught (gtk st) = uncaught (gtk st0).
Proof.
  unfold do_activate.
  destruct (create_overlays_providers (monitors (gtk st0)) st0)
    as (_ & _ & Hun).
  destruct (PyNum.py_int _); [| discriminate].
  unfold timeout_add. destruct (_ && _); [| discriminate].
  intros H. injection H as _ <-. exact Hun.
Qed.

(** X14. The run without a fade, end to end: when the library loads, the
    hold time is a valid interval and the fade duration is <= 0, the script
    creates one overlay per display, and the first timer firing ends it:
    exit status 0, nothing on the error stream, alpha still 1.0 and not one
    redraw requested. *)
Theorem script_skips_fade (a : Script.args) (displays : list Monitor)
  (ms : Z) (more : nat) :
  PyNum.py_int (PyNum.mul_int (Script.arg_hold a) 1000) = Ok ms ->
  0 <= ms < 2 ^ 32 ->
  (Script.arg_fade a <=? 0)%float = true ->
  let out := Script.module_body true a displays (S more) in
  Script.exit_status out = Some 0
  /\ Script.stderr (snd out) = []
  /\ Script.windows_created (snd out) = map overlay displays
  /\ exists st, Script.app (snd out) = Some st
                /\ alpha (self st) = 1.0%float
                /\ redraws (gtk st) = []
                /\ uncaught (gtk st) = [].
Proof.
  intros Hms Hrange Hfade out. subst out.
  unfold Script.module_body, Script.load_layer_shell, Script.main.
  destruct (parse_color_named_or_hex (Script.arg_color a)) as [c Hc].
  rewrite Hc.
  fold (fresh_app c (Script.arg_width a) (Script.arg_hold a)
          (Script.arg_fade a) displays).
  destruct (activate_fresh c (Script.arg_width a) (Script.arg_hold a)
              (Script.arg_fade a) displays ms Hms Hrange)
    as (st & Hact & [Ht Hq] & Ha & Hf & Hr & Hw).
  assert (Hu : uncaught (gtk st) = [])
    by exact (activate_uncaught _ _ _ Hact).
  unfold run. rewrite Hact.
  rewrite (main_loop_step _ _ _ _ Hq Ht).
  assert (Hd : dispatch st = on_gtk quit (on_gtk (set_timers []) st)).
  { unfold dispatch. rewrite Ht. cbn [call].
    rewrite start_fade_quits by (cbn; rewrite Hf; exact Hfade).
    reflexivity. }
  rewrite Hd, main_loop_quit by reflexivity.
  cbn. rewrite Hw.
  split; [reflexivity |]. split; [reflexivity |]. split; [reflexivity |].
  eexists. split; [reflexivity |]. cbn. rewrite Ha, Hr, Hu. auto.
Qed.

(** The theorem for --fade 0 on two displays. *)
Lemma script_skips_fade_witness :
  let a := {| Script.arg_color := "blue"; Script.arg_width := 4;
              Script.arg_hold := 0.1%float; Script.arg_fade := 0.0%float |} in
  let out := Script.module_body true a [0%nat; 1%nat] 3 in
  Script.exit_status out = Some 0
  /\ Script.stderr (snd out) = []
  /\ Script.windows_created (snd out) = map overlay [0%nat; 1%nat]
  /\ exists st, Script.app (snd out) = Some st
                /\ alpha (self st) = 1.0%float
                /\ redraws (gtk st) = []
                /\ uncaught (gtk st) = [].
Proof.
  intros a.
  apply (script_skips_fade a [0%nat; 1%nat] 100 2);
    [vm_compute; reflexivity | lia | reflexivity].
Defined.
